(** * ObjectPool.cpp: a pool of reusable objects with a background update thread

    The development has two layers.

    - A call-level semantics: each public member function of [ObjectPool]
      (constructors, [requestObject], [releaseObject], the destructor) and one
      pass of [updateLoop] is a function on the pool state, run from entry to
      exit by one thread with no other thread stepping in between.
    - A statement-level machine: every thread has a program counter named
      after the source line it is about to execute, the mutex has an owner,
      the condition variable has a wait set, and a schedule picks which
      thread executes its next statement.

    Both layers are built from the same primitive operations on the state, and
    the machine run by a single thread is shown to agree with the call-level
    functions. *)

From Stdlib Require Import List Arith ZArith Lia Bool.
Import ListNotations.

Set Implicit Arguments.

(** ** Data model *)

(** [Object*]: the address of a heap-allocated [Object]. *)
Abbreviation ptr := nat (only parsing).

(** What the pool does to the outside world, in program order: the calls on
    managed objects, allocation and deallocation, and the thread and
    condition-variable operations. *)
Inductive event : Type :=
| ev_new (p : ptr)            (* new Object() returned p *)
| ev_delete (p : ptr)         (* delete p *)
| ev_activate (p : ptr)       (* p->activate() *)
| ev_deactivate (p : ptr)     (* p->deactivate() *)
| ev_update (p : ptr)         (* p->update() *)
| ev_thread_start             (* updateThread = std::thread(...) *)
| ev_thread_join              (* updateThread.join() returned *)
| ev_notify_one               (* releaseMonitor.notify_one() *)
| ev_notify_all.              (* releaseMonitor.notify_all() *)

Definition event_eq_dec (a b : event) : {a = b} + {a <> b}.
Proof. decide equality; apply Nat.eq_dec. Defined.

Arguments event_eq_dec : simpl never.

(** The managed class.  The pool only calls [activate], [deactivate] and
    [update]; what matters to the pool's control flow is whether such a call
    returns normally or raises. *)
Record Resource : Type := mkResource {
  activate_raises : ptr -> bool;
  deactivate_raises : ptr -> bool
}.

(** The sample [Object] of lines 11-22: the three member functions print a
    line and return. *)
Definition Object : Resource :=
  {| activate_raises := fun _ => false;
     deactivate_raises := fun _ => false |}.

(** The data members of [class ObjectPool] (lines 27-33) that carry state,
    with the allocator and the event log of the run.  [std::queue] is a list
    whose head is [front()] and whose tail end receives [push]; [std::list] is
    a list whose tail end receives [push_back].  The mutex and the condition
    variable belong to the statement-level machine below. *)
Record ObjectPool : Type := mkPool {
  expandable : bool;              (* bool expandable *)
  objects : list ptr;             (* std::queue<Object*> objects *)
  activeObjects : list ptr;       (* std::list<Object*> activeObjects *)
  updateThread : bool;            (* the update thread has been started and not yet joined *)
  stopUpdateFlag : bool;          (* bool stopUpdateFlag *)
  next_object : ptr;              (* the address the next new Object() returns *)
  trace : list event              (* events so far, oldest first *)
}.

(** *** Field updates *)

Definition set_objects (l : list ptr) (w : ObjectPool) : ObjectPool :=
  mkPool (expandable w) l (activeObjects w) (updateThread w)
         (stopUpdateFlag w) (next_object w) (trace w).

Definition set_activeObjects (l : list ptr) (w : ObjectPool) : ObjectPool :=
  mkPool (expandable w) (objects w) l (updateThread w)
         (stopUpdateFlag w) (next_object w) (trace w).

Definition set_updateThread (b : bool) (w : ObjectPool) : ObjectPool :=
  mkPool (expandable w) (objects w) (activeObjects w) b
         (stopUpdateFlag w) (next_object w) (trace w).

Definition set_stopUpdateFlag (b : bool) (w : ObjectPool) : ObjectPool :=
  mkPool (expandable w) (objects w) (activeObjects w) (updateThread w)
         b (next_object w) (trace w).

Definition set_next_object (p : ptr) (w : ObjectPool) : ObjectPool :=
  mkPool (expandable w) (objects w) (activeObjects w) (updateThread w)
         (stopUpdateFlag w) p (trace w).

Definition emit (e : event) (w : ObjectPool) : ObjectPool :=
  mkPool (expandable w) (objects w) (activeObjects w) (updateThread w)
         (stopUpdateFlag w) (next_object w) (trace w ++ [e]).

(** *** Primitive statements *)

(** [objects.empty()] and [activeObjects.empty()]. *)
Definition empty (l : list ptr) : bool :=
  match l with [] => true | _ :: _ => false end.

(** [objects.push(new Object())]: allocate at the next address, enqueue. *)
Definition push_new_Object (w : ObjectPool) : ObjectPool :=
  let p := next_object w in
  set_objects (objects w ++ [p]) (set_next_object (S p) (emit (ev_new p) w)).

(** [objects.push(obj)]. *)
Definition objects_push (obj : ptr) (w : ObjectPool) : ObjectPool :=
  set_objects (objects w ++ [obj]) w.

(** [objects.pop()] on a non-empty queue; on an empty queue the behaviour is
    undefined and the callers below never reach it with one. *)
Definition objects_pop (w : ObjectPool) : ObjectPool :=
  set_objects (tl (objects w)) w.

(** [activeObjects.push_back(obj)]. *)
Definition activeObjects_push_back (obj : ptr) (w : ObjectPool) : ObjectPool :=
  set_activeObjects (activeObjects w ++ [obj]) w.

(** [activeObjects.remove(obj)]: [std::list::remove] erases every element
    equal to [obj]. *)
Definition activeObjects_remove (obj : ptr) (w : ObjectPool) : ObjectPool :=
  set_activeObjects (remove Nat.eq_dec obj (activeObjects w)) w.

(** ** Call-level semantics *)

(** How a call ends when no other thread runs during it. *)
Inductive outcome (A : Type) : Type :=
| Returns (a : A) (w : ObjectPool)   (* normal return *)
| Raises (w : ObjectPool)            (* an exception leaves the function *)
| Blocks (w : ObjectPool)            (* suspended in releaseMonitor.wait *)
| Undefined (w : ObjectPool).        (* front() or pop() on an empty queue *)

Arguments Raises {A} w.
Arguments Blocks {A} w.
Arguments Undefined {A} w.

(** The constructor loop of lines 47-49 and 55-57, [k] iterations. *)
Fixpoint fill (k : nat) (w : ObjectPool) : ObjectPool :=
  match k with
  | O => w
  | S k' => fill k' (push_new_Object w)
  end.

(** The state a constructor starts from: the member initialisers have run,
    the containers are default-constructed, no thread exists. *)
Definition fresh_pool (exp : bool) : ObjectPool :=
  mkPool exp [] [] false false 0 [].

(** Number of iterations of [for (int i = 0; i < numObjects; ++i)]. *)
Definition iterations (numObjects : Z) : nat := Z.to_nat numObjects.

(** [ObjectPool(int numObjects)], lines 46-53. *)
Definition ObjectPool_1 (numObjects : Z) : ObjectPool :=
  let w := fill (iterations numObjects) (fresh_pool false) in
  set_updateThread true (emit ev_thread_start w).

(** [ObjectPool(int numObjects, bool expandable)], lines 54-61. *)
Definition ObjectPool_2 (numObjects : Z) (exp : bool) : ObjectPool :=
  let w := fill (iterations numObjects) (fresh_pool exp) in
  set_updateThread true (emit ev_thread_start w).

Section Pool.

Variable R : Resource.

(** Lines 94-98 of [requestObject]. *)
Definition take_front (w : ObjectPool) : outcome ptr :=
  match objects w with
  | [] => Undefined w
  | obj :: _ =>
      let w1 := objects_pop w in
      let w2 := emit (ev_activate obj) w1 in
      if activate_raises R obj then Raises w2
      else Returns obj (activeObjects_push_back obj w2)
  end.

(** [Object* requestObject()], lines 80-99. *)
Definition requestObject (w : ObjectPool) : outcome ptr :=
  if negb (expandable w) then
    if empty (objects w) then Blocks w
    else take_front w
  else
    take_front (if empty (objects w) then push_new_Object w else w).

(** [void releaseObject(Object* obj)], lines 102-108. *)
Definition releaseObject (obj : ptr) (w : ObjectPool) : outcome unit :=
  let w1 := emit (ev_deactivate obj) w in
  if deactivate_raises R obj then Raises w1
  else
    let w2 := objects_push obj w1 in
    let w3 := activeObjects_remove obj w2 in
    Returns tt (emit ev_notify_one w3).

End Pool.

Section PoolLifetime.

Variable R : Resource.

(** Result of one evaluation of the [while (!stopUpdateFlag)] header of
    [updateLoop] together with the body it guards. *)
Inductive pass_result : Type :=
| NextPass (w : ObjectPool)    (* the flag was clear: the body ran once *)
| LoopExit (w : ObjectPool).   (* the flag was set: updateLoop returns *)

(** The [for (Object* obj : activeObjects) obj->update();] of lines 39-41,
    over the elements [l] still to visit. *)
Fixpoint update_each (l : list ptr) (w : ObjectPool) : ObjectPool :=
  match l with
  | [] => w
  | obj :: l' => update_each l' (emit (ev_update obj) w)
  end.

(** One trip around the loop of lines 37-42. *)
Definition updateLoop_pass (w : ObjectPool) : pass_result :=
  if negb (stopUpdateFlag w) then NextPass (update_each (activeObjects w) w)
  else LoopExit w.

(** [updateLoop()], lines 36-43, with a bound on the number of passes. *)
Fixpoint updateLoop (fuel : nat) (w : ObjectPool) : option ObjectPool :=
  match fuel with
  | O => None
  | S fuel' =>
      match updateLoop_pass w with
      | LoopExit w' => Some w'
      | NextPass w' => updateLoop fuel' w'
      end
  end.

(** [updateThread.join()], line 67: returns once the update thread has left
    [updateLoop]; with every call running alone the update thread is at its
    loop header when the joiner starts to wait. *)
Definition join (w : ObjectPool) : outcome unit :=
  if updateThread w then
    match updateLoop_pass w with
    | LoopExit w' => Returns tt (set_updateThread false (emit ev_thread_join w'))
    | NextPass _ => Blocks w
    end
  else Raises w.

(** [while (!activeObjects.empty()) releaseObject(activeObjects.front());],
    lines 70-72, with a bound on the number of iterations. *)
Fixpoint release_active (fuel : nat) (w : ObjectPool) : option (outcome unit) :=
  match activeObjects w with
  | [] => Some (Returns tt w)
  | obj :: _ =>
      match fuel with
      | O => None
      | S fuel' =>
          match releaseObject R obj w with
          | Returns _ w' => release_active fuel' w'
          | other => Some other
          end
      end
  end.

(** [while (!objects.empty()) { delete objects.front(); objects.pop(); }],
    lines 73-76; [q] is the queue content at loop entry.  Every [delete] is
    recorded in the trace, also one of a pointer that was deleted before:
    that is undefined behaviour in C++, and the statements below say where
    it is excluded. *)
Fixpoint delete_objects (q : list ptr) (w : ObjectPool) : ObjectPool :=
  match q with
  | [] => w
  | p :: q' => delete_objects q' (objects_pop (emit (ev_delete p) w))
  end.

(** The body of [~ObjectPool()], lines 63-77.  An exception that leaves
    [releaseObject] at line 71 is not caught: the destructor does not go on
    to the delete loop, and the outcome is [Raises].  [Returns] is the
    closing brace of line 77; the members ([releaseMonitor], [mutex], the
    containers) are destroyed after it, which is defined only when no other
    thread is inside a member function of the pool. *)
Definition ObjectPool_dtor_fuel (fuel : nat) (w : ObjectPool)
  : option (outcome unit) :=
  let w1 := set_stopUpdateFlag true w in
  let w2 := emit ev_notify_all w1 in
  match join w2 with
  | Returns _ w3 =>
      match release_active fuel w3 with
      | Some (Returns _ w4) => Some (Returns tt (delete_objects (objects w4) w4))
      | other => other
      end
  | other => Some other
  end.

(** Every iteration of the force-release loop erases at least the front
    element, so the length of [activeObjects] bounds the iterations. *)
Definition ObjectPool_dtor (w : ObjectPool) : option (outcome unit) :=
  ObjectPool_dtor_fuel (length (activeObjects w)) w.

(** *** Sequences of calls *)

Inductive call : Type :=
| Request                  (* requestObject() *)
| Release (obj : ptr)      (* releaseObject(obj) *)
| Pass.                    (* the update thread goes once around its loop *)

Inductive response : Type :=
| Granted (obj : ptr)      (* requestObject returned obj *)
| Done                     (* the call returned *)
| Waits                    (* requestObject is suspended; nothing changed *)
| Failed                   (* the call raised *)
| Undef.                   (* undefined behaviour *)

(** One call and the state it leaves.  A [requestObject] that is suspended
    has changed nothing; its caller stays inside [wait], and the calls that
    follow in a sequence are made by other threads. *)
Definition run_call (c : call) (w : ObjectPool) : response * ObjectPool :=
  match c with
  | Request =>
      match requestObject R w with
      | Returns obj w' => (Granted obj, w')
      | Raises w' => (Failed, w')
      | Blocks w' => (Waits, w')
      | Undefined w' => (Undef, w')
      end
  | Release obj =>
      match releaseObject R obj w with
      | Returns _ w' => (Done, w')
      | Raises w' => (Failed, w')
      | Blocks w' => (Waits, w')
      | Undefined w' => (Undef, w')
      end
  | Pass =>
      match updateLoop_pass w with
      | NextPass w' => (Done, w')
      | LoopExit w' => (Done, w')
      end
  end.

(** The state after a sequence of calls, each run to its end before the next
    starts. *)
Fixpoint run (cs : list call) (w : ObjectPool) : ObjectPool :=
  match cs with
  | [] => w
  | c :: cs' => run cs' (snd (run_call c w))
  end.

(** The responses of the calls of a sequence, in order. *)
Fixpoint responses (cs : list call) (w : ObjectPool) : list response :=
  match cs with
  | [] => []
  | c :: cs' => fst (run_call c w) :: responses cs' (snd (run_call c w))
  end.

(** The caller's side of the contract: every [releaseObject(obj)] is issued
    while [obj] is in [activeObjects]. *)
Definition contract_of (c : call) (w : ObjectPool) : Prop :=
  match c with
  | Release obj => In obj (activeObjects w)
  | _ => True
  end.

Fixpoint respects_contract (cs : list call) (w : ObjectPool) : Prop :=
  match cs with
  | [] => True
  | c :: cs' => contract_of c w /\ respects_contract cs' (snd (run_call c w))
  end.

End PoolLifetime.

(** A history pairs each call with its response. *)
Definition history : Type := list (call * response).

Definition is_release_of (r : ptr) (e : call * response) : Prop :=
  fst e = Release r.

(** No object is granted twice without a release of it in between. *)
Definition no_regrant (h : history) : Prop :=
  forall r h1 h2 h3,
    h = h1 ++ (Request, Granted r) :: h2 ++ (Request, Granted r) :: h3 ->
    Exists (is_release_of r) h2.

(** Number of calls of a kind made on [p] so far. *)
Definition activations (p : ptr) (w : ObjectPool) : nat :=
  count_occ event_eq_dec (trace w) (ev_activate p).

Definition deactivations (p : ptr) (w : ObjectPool) : nat :=
  count_occ event_eq_dec (trace w) (ev_deactivate p).

Definition updates (p : ptr) (w : ObjectPool) : nat :=
  count_occ event_eq_dec (trace w) (ev_update p).

Definition deletions (p : ptr) (w : ObjectPool) : nat :=
  count_occ event_eq_dec (trace w) (ev_delete p).

Definition creations (w : ObjectPool) : nat :=
  length (filter (fun e => match e with ev_new _ => true | _ => false end) (trace w)).

(** ** Statement-level machine *)

(** Thread identifiers.  Thread [updater] is the one the constructor starts
    on [updateLoop]. *)
Abbreviation tid := nat (only parsing).
Definition updater : tid := 0.

(** Who called [releaseObject]: a client thread, or the destructor at
    line 71. *)
Inductive caller : Type := FromClient | FromDtor.

(** Program counters: [Ln] is "about to execute line n of ObjectPool.cpp". *)
Inductive pc : Type :=
(* updateLoop *)
| L37                      (* while (!stopUpdateFlag) *)
| L38                      (* std::lock_guard<std::mutex> lock(mutex) *)
| L39 (i : nat)            (* for (Object* obj : activeObjects), i elements visited *)
| L40 (i : nat)            (* obj->update() on element i *)
| L42                      (* end of the loop body: lock is destroyed *)
(* ~ObjectPool *)
| L65                      (* stopUpdateFlag = true *)
| L66                      (* releaseMonitor.notify_all() *)
| L67                      (* updateThread.join() *)
| L70                      (* while (!activeObjects.empty()) *)
| L71                      (* releaseObject(activeObjects.front()) *)
| L73                      (* while (!objects.empty()) *)
| L74                      (* delete objects.front() *)
| L75                      (* objects.pop() *)
(* requestObject *)
| L82                      (* if (!expandable) *)
| L83                      (* std::unique_lock<std::mutex> lock(mutex) *)
| L84                      (* while (objects.empty()) *)
| L86                      (* releaseMonitor.wait(lock): unlock, enter the wait set *)
| L86w                     (* inside wait: blocked until woken, then re-locking *)
| L88                      (* end of the if-block: lock is destroyed *)
| L90                      (* if (objects.empty()) *)
| L91                      (* objects.push(new Object()) *)
| L94                      (* Object* obj = objects.front() *)
| L95 (obj : ptr)          (* objects.pop() *)
| L96 (obj : ptr)          (* obj->activate() *)
| L97 (obj : ptr)          (* activeObjects.push_back(obj); return obj *)
(* releaseObject *)
| L103 (k : caller) (obj : ptr)   (* std::lock_guard<std::mutex> lock(mutex) *)
| L104 (k : caller) (obj : ptr)   (* obj->deactivate() *)
| L105 (k : caller) (obj : ptr)   (* objects.push(obj) *)
| L106 (k : caller) (obj : ptr)   (* activeObjects.remove(obj) *)
| L107 (k : caller) (obj : ptr)   (* releaseMonitor.notify_one() *)
| L108 (k : caller) (obj : ptr)   (* end of the function: lock is destroyed *)
(* a thread that has left its function *)
| Returned (r : option ptr)       (* returned, with the object for requestObject *)
| Thrown                          (* left by an exception *)
| Crashed                         (* undefined behaviour *)
| NoThread.                       (* no such thread *)

Record Config : Type := mkConfig {
  pool : ObjectPool;
  mutex : option tid;          (* std::mutex mutex: its owner *)
  waiting : list tid;          (* threads blocked in releaseMonitor.wait, oldest first *)
  threads : tid -> pc
}.

Definition set_pool (w : ObjectPool) (c : Config) : Config :=
  mkConfig w (mutex c) (waiting c) (threads c).

Definition set_mutex (m : option tid) (c : Config) : Config :=
  mkConfig (pool c) m (waiting c) (threads c).

Definition set_waiting (l : list tid) (c : Config) : Config :=
  mkConfig (pool c) (mutex c) l (threads c).

Definition set_pc (t : tid) (p : pc) (c : Config) : Config :=
  mkConfig (pool c) (mutex c) (waiting c)
           (fun t' => if Nat.eqb t' t then p else threads c t').

Definition is_waiting (t : tid) (c : Config) : bool :=
  existsb (Nat.eqb t) (waiting c).

Definition has_left (p : pc) : bool :=
  match p with
  | Returned _ | Thrown | Crashed => true
  | _ => false
  end.

(** The statements that change [objects] or [activeObjects]. *)
Definition mutates (p : pc) : bool :=
  match p with
  | L75 | L91 | L95 _ | L97 _ | L105 _ _ | L106 _ _ => true
  | _ => false
  end.

(** The wait loop of lines 83-87. *)
Definition in_wait_loop (p : pc) : bool :=
  match p with
  | L83 | L84 | L86 | L86w => true
  | _ => false
  end.

Section Machine.

Variable R : Resource.

(** Acquire the mutex for [t] and continue at [p]; not enabled while the
    mutex is owned. *)
Definition lock_then (t : tid) (p : pc) (c : Config) : option Config :=
  match mutex c with
  | None => Some (set_pc t p (set_mutex (Some t) c))
  | Some _ => None
  end.

(** Thread [t] executes its next statement; [None] when it cannot (blocked
    on the mutex, in the wait set, in [join], or gone).  [notify_one] wakes
    the thread that has waited longest; the standard leaves the choice
    open.  Every statement is one step.  [Crashed] marks [front()] or
    [pop()] of line 71, 74, 94 or 95 on an empty container and an iterator
    that has run off the list; a [delete] of a pointer deleted before and a
    call on a deleted object are recorded in the trace and not stopped.  The
    destructor is [Returned None] at the closing brace of line 77, before
    the members are destroyed. *)
Definition step (t : tid) (c : Config) : option Config :=
  let w := pool c in
  let goto p := Some (set_pc t p c) in
  let goto_with p w' := Some (set_pc t p (set_pool w' c)) in
  match threads c t with
  (* updateLoop *)
  | L37 => goto (if negb (stopUpdateFlag w) then L38 else Returned None)
  | L38 => lock_then t (L39 0) c
  | L39 i => goto (if Nat.ltb i (length (activeObjects w)) then L40 i else L42)
  | L40 i =>
      match nth_error (activeObjects w) i with
      | Some obj => goto_with (L39 (S i)) (emit (ev_update obj) w)
      | None => goto Crashed
      end
  | L42 => Some (set_pc t L37 (set_mutex None c))
  (* ~ObjectPool *)
  | L65 => goto_with L66 (set_stopUpdateFlag true w)
  | L66 => Some (set_pc t L67 (set_waiting [] (set_pool (emit ev_notify_all w) c)))
  | L67 =>
      if has_left (threads c updater)
      then goto_with L70 (set_updateThread false (emit ev_thread_join w))
      else None
  | L70 => goto (if empty (activeObjects w) then L73 else L71)
  | L71 =>
      match activeObjects w with
      | obj :: _ => goto (L103 FromDtor obj)
      | [] => goto Crashed
      end
  | L73 => goto (if empty (objects w) then Returned None else L74)
  | L74 =>
      match objects w with
      | obj :: _ => goto_with L75 (emit (ev_delete obj) w)
      | [] => goto Crashed
      end
  | L75 => goto_with L73 (objects_pop w)
  (* requestObject *)
  | L82 => goto (if negb (expandable w) then L83 else L90)
  | L83 => lock_then t L84 c
  | L84 => goto (if empty (objects w) then L86 else L88)
  | L86 => Some (set_pc t L86w (set_mutex None (set_waiting (waiting c ++ [t]) c)))
  | L86w => if is_waiting t c then None else lock_then t L84 c
  | L88 => Some (set_pc t L94 (set_mutex None c))
  | L90 => goto (if empty (objects w) then L91 else L94)
  | L91 => goto_with L94 (push_new_Object w)
  | L94 =>
      match objects w with
      | obj :: _ => goto (L95 obj)
      | [] => goto Crashed
      end
  | L95 obj =>
      match objects w with
      | _ :: _ => goto_with (L96 obj) (objects_pop w)
      | [] => goto Crashed
      end
  | L96 obj =>
      goto_with (if activate_raises R obj then Thrown else L97 obj)
                (emit (ev_activate obj) w)
  | L97 obj => goto_with (Returned (Some obj)) (activeObjects_push_back obj w)
  (* releaseObject *)
  | L103 k obj => lock_then t (L104 k obj) c
  | L104 k obj =>
      if deactivate_raises R obj
      then Some (set_pc t Thrown (set_mutex None (set_pool (emit (ev_deactivate obj) w) c)))
      else goto_with (L105 k obj) (emit (ev_deactivate obj) w)
  | L105 k obj => goto_with (L106 k obj) (objects_push obj w)
  | L106 k obj => goto_with (L107 k obj) (activeObjects_remove obj w)
  | L107 k obj =>
      Some (set_pc t (L108 k obj)
              (set_waiting (tl (waiting c)) (set_pool (emit ev_notify_one w) c)))
  | L108 k obj =>
      Some (set_pc t (match k with FromClient => Returned None | FromDtor => L70 end)
              (set_mutex None c))
  | Returned _ | Thrown | Crashed | NoThread => None
  end.

(** Run a schedule: the threads named in it execute one statement each, in
    that order. *)
Fixpoint exec (s : list tid) (c : Config) : option Config :=
  match s with
  | [] => Some c
  | t :: s' =>
      match step t c with
      | Some c' => exec s' c'
      | None => None
      end
  end.

(** [std::condition_variable::wait] may also return without a notification.
    A schedule of actions allows such spurious wake-ups next to ordinary
    statements. *)
Inductive action : Type :=
| Run (t : tid)             (* thread t executes its next statement *)
| SpuriousWake (t : tid).   (* thread t, blocked in wait, is woken *)

Definition spurious_wake (t : tid) (c : Config) : option Config :=
  match threads c t with
  | L86w =>
      if is_waiting t c
      then Some (set_waiting (remove Nat.eq_dec t (waiting c)) c)
      else None
  | _ => None
  end.

Definition perform (a : action) (c : Config) : option Config :=
  match a with
  | Run t => step t c
  | SpuriousWake t => spurious_wake t c
  end.

Fixpoint run_actions (s : list action) (c : Config) : option Config :=
  match s with
  | [] => Some c
  | a :: s' =>
      match perform a c with
      | Some c' => run_actions s' c'
      | None => None
      end
  end.

End Machine.

(** The configuration after construction: the update thread is at the head of
    [updateLoop]; client thread [i + 1] is about to run [entry i]. *)
Definition boot (w : ObjectPool) (entry : list pc) : Config :=
  mkConfig w None []
    (fun t => match t with
              | O => L37
              | S i => nth i entry NoThread
              end).

(** ** Predicates used in the statements *)

(** Number of entries for [p] in the two collections together. *)
Definition copies (p : ptr) (w : ObjectPool) : nat :=
  count_occ Nat.eq_dec (objects w) p + count_occ Nat.eq_dec (activeObjects w) p.

(** No object is in both collections or twice in one, and only allocated
    objects are in them. *)
Definition well_formed (w : ObjectPool) : Prop :=
  forall p, copies p w <= 1 /\ (next_object w <= p -> copies p w = 0).

(** Every allocated object is in one of the two collections. *)
Definition accounted (w : ObjectPool) : Prop :=
  forall p, p < next_object w -> 1 <= copies p w.

(** Each object has been activated once more than deactivated exactly when it
    is in [activeObjects]. *)
Definition balanced (w : ObjectPool) : Prop :=
  forall p,
    activations p w =
    deactivations p w + count_occ Nat.eq_dec (activeObjects w) p.

(** Objects already granted and not released since, along a history. *)
Fixpoint regrant_free (held : list ptr) (h : history) : Prop :=
  match h with
  | [] => True
  | (Request, Granted r) :: h' => ~ In r held /\ regrant_free (r :: held) h'
  | (Release r, _) :: h' => regrant_free (remove Nat.eq_dec r held) h'
  | _ :: h' => regrant_free held h'
  end.

(** The two halves of the bound-and-exclusivity statement for a pool [w0] and
    a sequence of calls. *)
Definition active_bounded (R : Resource) (N : nat) (w0 : ObjectPool)
           (cs : list call) : Prop :=
  forall k, length (activeObjects (run R (firstn k cs) w0)) <= N.

Definition grants_exclusive (R : Resource) (w0 : ObjectPool)
           (cs : list call) : Prop :=
  no_regrant (combine cs (responses R cs w0)).

Definition bounded_and_exclusive (R : Resource) (N : nat) (w0 : ObjectPool)
           (cs : list call) : Prop :=
  active_bounded R N w0 cs /\ grants_exclusive R w0 cs.

(** A release of an object that is not active is rejected: the call reports
    an error and both collections are as before. *)
Definition rejects_release (R : Resource) (r : ptr) (w : ObjectPool) : Prop :=
  exists w', releaseObject R r w = Raises w' /\
             objects w' = objects w /\
             activeObjects w' = activeObjects w.

Definition release_checked (R : Resource) (r : ptr) (w : ObjectPool) : Prop :=
  ~ In r (activeObjects w) -> rejects_release R r w.

(** The object the next [requestObject] hands to [activate], when it gets
    that far. *)
Definition next_grant (w : ObjectPool) : ptr :=
  match objects w with
  | obj :: _ => obj
  | [] => next_object w
  end.



(** A raising [deactivate] still moves the object from [activeObjects] to
    [objects]. *)
Definition deactivate_failure_completes (R : Resource) (r : ptr)
           (w : ObjectPool) : Prop :=
  In r (activeObjects w) ->
  deactivate_raises R r = true ->
  exists w', releaseObject R r w = Raises w' /\
             ~ In r (activeObjects w') /\
             In r (objects w').


Definition FailingDeactivate : Resource :=
  {| activate_raises := fun _ => false; deactivate_raises := fun _ => true |}.

(** What thread [t] and the shared state look like in [c'], every other
    thread being where it was in [c]. *)
Definition lands (c' : Config) (w : ObjectPool) (m : option tid)
           (q : list tid) (t : tid) (p : pc) (c : Config) : Prop :=
  pool c' = w /\ mutex c' = m /\ waiting c' = q /\ threads c' t = p /\
  forall t', t' <> t -> threads c' t' = threads c t'.


(** The program counters between an acquisition of the mutex and the
    destruction of the lock object that holds it. *)
Definition under_lock (p : pc) : bool :=
  match p with
  | L39 _ | L40 _ | L42 | L84 | L86 | L88
  | L104 _ _ | L105 _ _ | L106 _ _ | L107 _ _ | L108 _ _ => true
  | _ => false
  end.

(** Every thread inside a locked region owns the mutex. *)
Definition lock_discipline (c : Config) : Prop :=
  forall t, under_lock (threads c t) = true -> mutex c = Some t.

(** Program counters from which a thread can never add to [objects]: the
    update loop, the wait loop of [requestObject], and threads that are
    gone. *)
Definition quiet (p : pc) : bool :=
  match p with
  | L37 | L38 | L39 _ | L40 _ | L42
  | L83 | L84 | L86 | L86w
  | Returned _ | Thrown | Crashed | NoThread => true
  | _ => false
  end.

(** Program counters of a thread that can add nothing to [objects] while
    both collections are empty: the [quiet] ones, and the destructor outside
    its call of [releaseObject] and outside its delete loop. *)
Definition harmless (p : pc) : bool :=
  match p with
  | L65 | L66 | L67 | L70 | L73 => true
  | _ => quiet p
  end.

(** A thread that is not inside a member function of the pool. *)
Definition outside (p : pc) : bool :=
  match p with
  | Returned _ | Thrown | NoThread => true
  | _ => false
  end.

(** The owner of the mutex is inside a locked region, unless it ran into
    undefined behaviour there. *)
Definition owner_inside (c : Config) : Prop :=
  forall t, mutex c = Some t ->
            under_lock (threads c t) = true \/ threads c t = Crashed.

(** The program counters at which a thread asks for the mutex. *)
Definition wants_mutex (p : pc) : bool :=
  match p with
  | L38 | L83 | L86w | L103 _ _ => true
  | _ => false
  end.

(** 1 when [p] occurs in [l], 0 otherwise. *)
Definition present (p : ptr) (l : list ptr) : nat :=
  if in_dec Nat.eq_dec p l then 1 else 0.

(** The destructor hands no pointer to [delete] twice.  Its force-release
    loop moves every object that is in [activeObjects] to the queue once,
    and its delete loop deletes every entry of the queue; a pointer with two
    entries in the queue, or one in each collection, or one that was deleted
    before, would be deleted again, which is undefined behaviour in C++.
    [delete_objects] and [step] record the event of every [delete] and do not
    stop there, so every statement in which the destructor returns carries
    this condition. *)
Definition deleted_once (w : ObjectPool) : Prop :=
  forall p,
    deletions p w + count_occ Nat.eq_dec (objects w) p +
    present p (activeObjects w) <= 1.

(** Number of objects a call allocates: one for a [requestObject] that finds
    the queue of a growable pool empty, none for any other call. *)
Definition allocates (c : call) (w : ObjectPool) : nat :=
  match c with
  | Request => if expandable w && empty (objects w) then 1 else 0
  | _ => 0
  end.

Fixpoint allocations (R : Resource) (cs : list call) (w : ObjectPool) : nat :=
  match cs with
  | [] => 0
  | c :: cs' => allocates c w + allocations R cs' (snd (run_call R c w))
  end.



(** * Properties *)

(** ** The constructor loop *)

Lemma fill_spec (k : nat) (w : ObjectPool) :
  fill k w =
  mkPool (expandable w) (objects w ++ seq (next_object w) k)
         (activeObjects w) (updateThread w) (stopUpdateFlag w)
         (next_object w + k)
         (trace w ++ map ev_new (seq (next_object w) k)).
Proof.
  revert w. induction k as [|k IH]; intro w; simpl.
  - destruct w; simpl. now rewrite !app_nil_r, Nat.add_0_r.
  - rewrite IH. unfold push_new_Object; simpl.
    rewrite <- !app_assoc. simpl. f_equal. lia.
Qed.

Lemma ObjectPool_2_spec (n : Z) (exp : bool) :
  ObjectPool_2 n exp =
  mkPool exp (seq 0 (Z.to_nat n)) [] true false (Z.to_nat n)
         (map ev_new (seq 0 (Z.to_nat n)) ++ [ev_thread_start]).
Proof.
  unfold ObjectPool_2, iterations. rewrite fill_spec. reflexivity.
Qed.

(** ** What one call does *)

Lemma requestObject_nonempty (R : Resource) (w : ObjectPool) obj rest :
  objects w = obj :: rest ->
  requestObject R w =
  let w1 := mkPool (expandable w) rest (activeObjects w) (updateThread w)
                   (stopUpdateFlag w) (next_object w)
                   (trace w ++ [ev_activate obj]) in
  if activate_raises R obj then Raises w1
  else Returns obj (set_activeObjects (activeObjects w ++ [obj]) w1).
Proof.
  intro H. unfold requestObject, take_front.
  destruct (expandable w) eqn:E; simpl; rewrite H; simpl;
    unfold objects_pop, emit, activeObjects_push_back, set_objects; simpl;
    rewrite H, ?E; reflexivity.
Qed.

Lemma requestObject_empty_fixed (R : Resource) (w : ObjectPool) :
  objects w = [] -> expandable w = false -> requestObject R w = Blocks w.
Proof.
  intros H E. unfold requestObject. now rewrite E, H.
Qed.

Lemma requestObject_empty_grow (R : Resource) (w : ObjectPool) :
  objects w = [] -> expandable w = true ->
  requestObject R w =
  let p := next_object w in
  let w1 := mkPool true [] (activeObjects w) (updateThread w)
                   (stopUpdateFlag w) (S p)
                   (trace w ++ [ev_new p; ev_activate p]) in
  if activate_raises R p then Raises w1
  else Returns p (set_activeObjects (activeObjects w ++ [p]) w1).
Proof.
  intros H E. unfold requestObject, take_front. rewrite E, H. simpl.
  unfold objects_pop, emit, activeObjects_push_back, set_objects; simpl.
  rewrite H, E. simpl. rewrite <- !app_assoc. reflexivity.
Qed.

Lemma releaseObject_spec (R : Resource) (r : ptr) (w : ObjectPool) :
  releaseObject R r w =
  if deactivate_raises R r then Raises (emit (ev_deactivate r) w)
  else Returns tt
         (mkPool (expandable w) (objects w ++ [r])
                 (remove Nat.eq_dec r (activeObjects w)) (updateThread w)
                 (stopUpdateFlag w) (next_object w)
                 (trace w ++ [ev_deactivate r; ev_notify_one])).
Proof.
  unfold releaseObject. destruct (deactivate_raises R r); [reflexivity|].
  unfold emit, activeObjects_remove, objects_push, set_objects,
    set_activeObjects; simpl.
  rewrite <- app_assoc. reflexivity.
Qed.

Lemma update_each_spec (l : list ptr) (w : ObjectPool) :
  update_each l w =
  mkPool (expandable w) (objects w) (activeObjects w) (updateThread w)
         (stopUpdateFlag w) (next_object w) (trace w ++ map ev_update l).
Proof.
  revert w. induction l as [|p l IH]; intro w; simpl.
  - destruct w; simpl. now rewrite app_nil_r.
  - rewrite IH. simpl. now rewrite <- app_assoc.
Qed.

(** ** Counting entries *)

Lemma count_occ_remove (x y : ptr) (l : list ptr) :
  count_occ Nat.eq_dec (remove Nat.eq_dec x l) y =
  if Nat.eq_dec x y then 0 else count_occ Nat.eq_dec l y.
Proof.
  induction l as [|a l IH]; simpl.
  - now destruct (Nat.eq_dec x y).
  - destruct (Nat.eq_dec x a) as [->|Hxa].
    + destruct (Nat.eq_dec a y) as [->|Hay].
      * rewrite IH. now destruct (Nat.eq_dec y y).
      * rewrite IH. now destruct (Nat.eq_dec a y).
    + simpl. destruct (Nat.eq_dec a y) as [->|Hay].
      * rewrite IH. destruct (Nat.eq_dec x y); [congruence|reflexivity].
      * exact IH.
Qed.

Lemma count_occ_snoc (x y : ptr) (l : list ptr) :
  count_occ Nat.eq_dec (l ++ [x]) y =
  count_occ Nat.eq_dec l y + (if Nat.eq_dec x y then 1 else 0).
Proof.
  rewrite count_occ_app. simpl. now destruct (Nat.eq_dec x y).
Qed.

Lemma count_occ_event_snoc (e a : event) (l : list event) :
  count_occ event_eq_dec (l ++ [e]) a =
  count_occ event_eq_dec l a + (if event_eq_dec e a then 1 else 0).
Proof.
  rewrite count_occ_app. simpl. now destruct (event_eq_dec e a).
Qed.

(** ** Invariants of the call-level semantics *)

Ltac unfold_counts :=
  unfold well_formed, accounted, balanced, copies, activations,
    deactivations, updates, deletions in *; simpl in *.

Ltac split_event_eq a b :=
  let E := fresh "E" in
  destruct (event_eq_dec a b) as [E|E];
  [ try discriminate E; try (injection E as E; subst)
  | match type of E with
    | ?f ?x <> ?f ?y =>
        assert (x <> y) by (let K := fresh in intro K; apply E; now rewrite K)
    | _ => idtac
    end ].

Ltac count_cases :=
  repeat rewrite ?count_occ_snoc, ?count_occ_remove, ?count_occ_event_snoc,
    ?count_occ_app in *;
  simpl in *;
  repeat match goal with
         | |- context [event_eq_dec ?a ?b] => split_event_eq a b
         | H : context [event_eq_dec ?a ?b] |- _ => split_event_eq a b
         | |- context [Nat.eq_dec ?a ?b] => destruct (Nat.eq_dec a b); subst
         | H : context [Nat.eq_dec ?a ?b] |- _ =>
             destruct (Nat.eq_dec a b); subst
         end.

Lemma request_cases (R : Resource) (w : ObjectPool) :
  (objects w = [] /\ expandable w = false) \/
  (objects w = [] /\ expandable w = true) \/
  (exists obj rest, objects w = obj :: rest).
Proof.
  destruct (objects w) as [|obj rest]; [destruct (expandable w)|]; eauto.
Qed.

Lemma well_formed_run_call (R : Resource) (c : call) (w : ObjectPool) :
  well_formed w -> contract_of c w -> well_formed (snd (run_call R c w)).
Proof.
  intros WF HC. destruct c as [|r|]; simpl.
  - destruct (request_cases R w) as [[H E]|[[H E]|(obj & rest & H)]].
    + now rewrite requestObject_empty_fixed.
    + rewrite requestObject_empty_grow by assumption. simpl.
      destruct (activate_raises R (next_object w)); simpl;
        intro p; specialize (WF p); unfold_counts; rewrite H in *;
        count_cases; lia.
    + rewrite (requestObject_nonempty R w H). simpl.
      destruct (activate_raises R obj); simpl;
        intro p; specialize (WF p); unfold_counts; rewrite H in *;
        count_cases; lia.
  - rewrite releaseObject_spec. simpl in HC.
    apply (count_occ_In Nat.eq_dec) in HC.
    destruct (deactivate_raises R r); simpl;
      intro p; specialize (WF p); unfold_counts; count_cases; lia.
  - unfold updateLoop_pass. destruct (stopUpdateFlag w); simpl; [exact WF|].
    rewrite update_each_spec. exact WF.
Qed.

Lemma policy_run_call (R : Resource) (c : call) (w : ObjectPool) :
  expandable (snd (run_call R c w)) = expandable w /\
  (expandable w = false -> next_object (snd (run_call R c w)) = next_object w).
Proof.
  destruct c as [|r|]; simpl.
  - destruct (request_cases R w) as [[H E]|[[H E]|(obj & rest & H)]].
    + now rewrite requestObject_empty_fixed.
    + rewrite requestObject_empty_grow by assumption. simpl.
      destruct (activate_raises R (next_object w)); simpl; split;
        congruence.
    + rewrite (requestObject_nonempty R w H). simpl.
      destruct (activate_raises R obj); simpl; split; congruence.
  - rewrite releaseObject_spec.
    destruct (deactivate_raises R r); simpl; split; congruence.
  - unfold updateLoop_pass. destruct (stopUpdateFlag w); simpl;
      rewrite ?update_each_spec; split; reflexivity.
Qed.

Lemma balanced_run_call (c : call) (w : ObjectPool) :
  well_formed w -> balanced w -> contract_of c w ->
  balanced (snd (run_call Object c w)).
Proof.
  intros WF B HC. destruct c as [|r|]; unfold run_call.
  - destruct (request_cases Object w) as [[H E]|[[H E]|(obj & rest & H)]].
    + now rewrite requestObject_empty_fixed.
    + rewrite requestObject_empty_grow by assumption. simpl.
      intro p; specialize (B p); unfold_counts; count_cases; lia.
    + rewrite (requestObject_nonempty Object w H). simpl.
      intro p; specialize (B p); unfold_counts; count_cases; lia.
  - rewrite releaseObject_spec. simpl in *.
    apply (count_occ_In Nat.eq_dec) in HC.
    intro p; specialize (B p); specialize (WF p);
      unfold_counts; count_cases; lia.
  - unfold updateLoop_pass. destruct (stopUpdateFlag w); simpl; [exact B|].
    rewrite update_each_spec. intro p; specialize (B p). unfold_counts.
    rewrite !count_occ_app. rewrite B.
    assert (Z : forall e l, (forall q, e <> ev_update q) ->
              count_occ event_eq_dec (map ev_update l) e = 0).
    { intros e l He. apply count_occ_not_In. intro HI.
      apply in_map_iff in HI. destruct HI as (q & Hq & _).
      now apply (He q). }
    rewrite !Z by (intros q; discriminate). lia.
Qed.

Lemma accounted_run_call (c : call) (w : ObjectPool) :
  accounted w -> accounted (snd (run_call Object c w)).
Proof.
  intros A. destruct c as [|r|]; unfold run_call.
  - destruct (request_cases Object w) as [[H E]|[[H E]|(obj & rest & H)]].
    + now rewrite requestObject_empty_fixed.
    + rewrite requestObject_empty_grow by assumption. simpl.
      intros p Hp. unfold_counts. 
      destruct (Nat.eq_dec p (next_object w)) as [->|Hne].
      * count_cases; lia.
      * assert (Hlt : p < next_object w) by lia.
        specialize (A p Hlt). rewrite H in A. count_cases; simpl in *; lia.
    + rewrite (requestObject_nonempty Object w H). simpl.
      intros p Hp; specialize (A p Hp); unfold_counts; rewrite H in *;
        count_cases; lia.
  - rewrite releaseObject_spec. simpl.
    intros p Hp; specialize (A p Hp); unfold_counts; count_cases; lia.
  - unfold updateLoop_pass. destruct (stopUpdateFlag w); simpl; [exact A|].
    rewrite update_each_spec. exact A.
Qed.

(** ** Invariants along a sequence of calls *)

Lemma respects_contract_firstn (R : Resource) (k : nat) (cs : list call)
      (w : ObjectPool) :
  respects_contract R cs w -> respects_contract R (firstn k cs) w.
Proof.
  revert k w. induction cs as [|c cs IH]; intros [|k] w H; simpl; auto.
  destruct H as [H1 H2]. split; auto.
Qed.

Lemma well_formed_run (R : Resource) (cs : list call) (w : ObjectPool) :
  well_formed w -> respects_contract R cs w -> well_formed (run R cs w).
Proof.
  revert w. induction cs as [|c cs IH]; intros w WF H; simpl; auto.
  destruct H as [H1 H2]. apply IH; auto using well_formed_run_call.
Qed.

Lemma policy_run (R : Resource) (cs : list call) (w : ObjectPool) :
  expandable (run R cs w) = expandable w /\
  (expandable w = false -> next_object (run R cs w) = next_object w).
Proof.
  revert w. induction cs as [|c cs IH]; intro w; simpl; auto.
  destruct (IH (snd (run_call R c w))) as [H1 H2].
  destruct (policy_run_call R c w) as [H3 H4].
  split; [congruence|]. intro E. rewrite H2 by congruence. auto.
Qed.

Lemma balanced_run (cs : list call) (w : ObjectPool) :
  well_formed w -> balanced w -> respects_contract Object cs w ->
  balanced (run Object cs w).
Proof.
  revert w. induction cs as [|c cs IH]; intros w WF B H; simpl; auto.
  destruct H as [H1 H2].
  apply IH; auto using well_formed_run_call, balanced_run_call.
Qed.

Lemma accounted_run (cs : list call) (w : ObjectPool) :
  accounted w -> accounted (run Object cs w).
Proof.
  revert w. induction cs as [|c cs IH]; intros w A; simpl; auto.
  apply IH; auto using accounted_run_call.
Qed.

(** In a well-formed pool the active list has no more entries than objects
    were allocated. *)
Lemma well_formed_active_bound (w : ObjectPool) :
  well_formed w -> length (activeObjects w) <= next_object w.
Proof.
  intro WF.
  assert (ND : NoDup (activeObjects w)).
  { apply (NoDup_count_occ Nat.eq_dec). intro p.
    destruct (WF p) as [H _]. unfold copies in H. lia. }
  assert (IN : incl (activeObjects w) (seq 0 (next_object w))).
  { intros p Hp. apply in_seq. split; [lia|]. simpl.
    destruct (WF p) as [_ H].
    apply (count_occ_In Nat.eq_dec) in Hp. unfold copies in H.
    destruct (Nat.lt_ge_cases p (next_object w)) as [|Hge]; [assumption|].
    specialize (H Hge). lia. }
  pose proof (NoDup_incl_length ND IN) as L. now rewrite length_seq in L.
Qed.

Lemma well_formed_disjoint (w : ObjectPool) (p : ptr) :
  well_formed w -> In p (objects w) -> ~ In p (activeObjects w).
Proof.
  intros WF Ho Ha. destruct (WF p) as [H _]. unfold copies in H.
  apply (count_occ_In Nat.eq_dec) in Ho, Ha. lia.
Qed.

Lemma well_formed_ctor (n : Z) (exp : bool) : well_formed (ObjectPool_2 n exp).
Proof.
  rewrite ObjectPool_2_spec. intro p. unfold copies. simpl.
  rewrite Nat.add_0_r. split.
  - apply (NoDup_count_occ Nat.eq_dec). apply seq_NoDup.
  - intro H. apply count_occ_not_In. rewrite in_seq. lia.
Qed.

Lemma balanced_ctor (n : Z) (exp : bool) : balanced (ObjectPool_2 n exp).
Proof.
  rewrite ObjectPool_2_spec. intro p. unfold activations, deactivations.
  simpl. rewrite !count_occ_app. simpl.
  assert (Z : forall e, (forall q, e <> ev_new q) ->
            count_occ event_eq_dec (map ev_new (seq 0 (Z.to_nat n))) e = 0).
  { intros e He. apply count_occ_not_In. intro HI.
    apply in_map_iff in HI. destruct HI as (q & Hq & _).
    now apply (He q). }
  rewrite !Z by (intros q; discriminate).
  destruct (event_eq_dec ev_thread_start (ev_activate p)); [discriminate|].
  destruct (event_eq_dec ev_thread_start (ev_deactivate p)); [discriminate|].
  reflexivity.
Qed.

Lemma accounted_ctor (n : Z) (exp : bool) : accounted (ObjectPool_2 n exp).
Proof.
  rewrite ObjectPool_2_spec. intros p Hp. unfold copies. simpl in *.
  rewrite Nat.add_0_r. apply (count_occ_In Nat.eq_dec), in_seq. lia.
Qed.

(** ** Grants along a history *)

Lemma regrant_free_held (r : ptr) (h2 h3 : history) (held : list ptr) :
  regrant_free held (h2 ++ (Request, Granted r) :: h3) ->
  In r held -> Exists (is_release_of r) h2.
Proof.
  revert held. induction h2 as [|[c a] h2 IH]; intros held H Hin; simpl in H.
  - destruct H as [H _]. contradiction.
  - destruct c as [|q|].
    + apply Exists_cons_tl.
      destruct a; try (now apply (IH held)).
      destruct H as [_ H]. apply (IH _ H). now right.
    + destruct (Nat.eq_dec q r) as [->|Hne].
      * apply Exists_cons_hd. reflexivity.
      * apply Exists_cons_tl. eapply IH; eauto.
        apply in_in_remove; auto.
    + apply Exists_cons_tl; eapply IH; eauto.
Qed.

Lemma regrant_free_no_regrant (h : history) (held : list ptr) :
  regrant_free held h -> no_regrant h.
Proof.
  intros H r h1. revert held h H.
  induction h1 as [|[c a] h1 IH]; intros held h H h2 h3 E; subst h.
  - simpl in H. destruct H as [_ H].
    eapply regrant_free_held; eauto. now left.
  - simpl in H. destruct c as [|q|]; [destruct a|..];
      try (now apply (IH _ _ H h2 h3)).
    destruct H as [_ H]. now apply (IH _ _ H h2 h3).
Qed.

Lemma run_regrant_free (R : Resource) (cs : list call) (w : ObjectPool)
      (held : list ptr) :
  well_formed w -> respects_contract R cs w ->
  (forall r, In r held -> In r (activeObjects w)) ->
  regrant_free held (combine cs (responses R cs w)).
Proof.
  revert w held. induction cs as [|c cs IH]; intros w held WF HC Hheld;
    [exact I|].
  destruct HC as [HC1 HC2].
  pose proof (well_formed_run_call R c WF HC1) as WF'.
  cbn [responses combine]. destruct c as [|q|].
  - (* requestObject *)
    unfold run_call in *.
    destruct (request_cases R w) as [[H E]|[[H E]|(obj & rest & H)]].
    + rewrite requestObject_empty_fixed in * by assumption.
      simpl. now apply IH.
    + rewrite requestObject_empty_grow in * by assumption. cbv zeta in *.
      destruct (activate_raises R (next_object w)); simpl in *.
      * now apply IH.
      * split.
        -- intro Hin. apply Hheld in Hin.
           destruct (WF (next_object w)) as [_ K]. unfold copies in K.
           apply (count_occ_In Nat.eq_dec) in Hin.
           specialize (K (Nat.le_refl _)). lia.
        -- apply IH; auto. intros r [<-|Hr]; apply in_or_app; simpl; auto.
    + rewrite (requestObject_nonempty R w H) in *. cbv zeta in *.
      destruct (activate_raises R obj); simpl in *.
      * now apply IH.
      * split.
        -- intro Hin. apply Hheld in Hin.
           apply (well_formed_disjoint obj WF); auto.
           rewrite H. now left.
        -- apply IH; auto. intros r [<-|Hr]; apply in_or_app; simpl; auto.
  - (* releaseObject *)
    unfold run_call in *. rewrite releaseObject_spec in *.
    destruct (deactivate_raises R q); simpl in *.
    + apply IH; auto. intros r Hr. apply in_remove in Hr. now apply Hheld.
    + apply IH; auto. intros r Hr. apply in_remove in Hr.
      destruct Hr as [Hr Hne]. apply in_in_remove; auto.
  - (* one pass of the update thread *)
    unfold run_call in *. unfold updateLoop_pass in *.
    destruct (stopUpdateFlag w); simpl in *.
    + now apply IH.
    + rewrite update_each_spec in *. now apply IH.
Qed.

(** ** Bound and exclusivity (C1) *)

(** C1, under the caller's contract: for every sequence of [requestObject]
    and [releaseObject] calls, each run to its end before the next starts, on
    a non-growable pool constructed with [N] objects, in which every release
    is of an object currently in [activeObjects], the number of entries of
    [activeObjects] never exceeds [N] and no object is granted twice without a
    release of it in between. *)
Theorem C1_bounded_exclusive_under_contract
        (R : Resource) (N : Z) (cs : list call) :
  respects_contract R cs (ObjectPool_2 N false) ->
  bounded_and_exclusive R (Z.to_nat N) (ObjectPool_2 N false) cs.
Proof.
  intro HC. split.
  - intro k.
    pose proof (respects_contract_firstn R k cs _ HC) as HCk.
    pose proof (well_formed_run R _ (well_formed_ctor N false) HCk) as WF.
    apply well_formed_active_bound in WF.
    destruct (policy_run R (firstn k cs) (ObjectPool_2 N false)) as [_ Hn].
    assert (E : expandable (ObjectPool_2 N false) = false)
      by (rewrite ObjectPool_2_spec; reflexivity).
    rewrite (Hn E) in WF.
    assert (E' : next_object (ObjectPool_2 N false) = Z.to_nat N)
      by (rewrite ObjectPool_2_spec; reflexivity).
    now rewrite E' in WF.
  - unfold grants_exclusive.
    apply regrant_free_no_regrant with (held := []).
    apply run_regrant_free; auto using well_formed_ctor.
    intros r [].
Qed.

Lemma C1_bounded_exclusive_under_contract_witness :
  respects_contract Object
    [Request; Request; Release 0; Request; Release 1; Request]
    (ObjectPool_2 2 false) /\
  bounded_and_exclusive Object 2 (ObjectPool_2 2 false)
    [Request; Request; Release 0; Request; Release 1; Request].
Proof.
  assert (H : respects_contract Object
                [Request; Request; Release 0; Request; Release 1; Request]
                (ObjectPool_2 2 false)).
  { simpl. repeat split; auto. }
  split; [exact H|].
  exact (C1_bounded_exclusive_under_contract Object 2 _ H).
Defined.

(** C1 as stated fails: after a double release the same object is in the
    queue twice, two requests are granted it with no release in between and
    [activeObjects] has two entries in a pool of one. *)
Lemma C1_fails_after_double_release :
  ~ bounded_and_exclusive Object 1 (ObjectPool_2 1 false)
      [Request; Release 0; Release 0; Request; Request].
Proof.
  intros [HB _]. specialize (HB 5). vm_compute in HB. lia.
Qed.

Lemma double_release_regrants :
  ~ grants_exclusive Object (ObjectPool_2 1 false)
      [Request; Release 0; Release 0; Request; Request].
Proof.
  intro H.
  specialize (H 0 [(Request, Granted 0); (Release 0, Done); (Release 0, Done)]
                [] [] eq_refl).
  inversion H.
Qed.

(** ** Release of an object that is not active (C2) *)

(** C2, as the code has it: for every object [r] that is not in
    [activeObjects], [releaseObject(r)] is not detected.  When [deactivate]
    returns, the call returns normally after calling [r->deactivate()],
    pushing [r] at the tail of [objects] (one more entry for [r] there, a
    duplicate when [r] was already free) and notifying one waiter;
    [activeObjects] is unchanged. *)
Theorem C2_release_of_inactive_is_unchecked
        (R : Resource) (r : ptr) (w : ObjectPool) :
  ~ In r (activeObjects w) ->
  deactivate_raises R r = false ->
  exists w',
    releaseObject R r w = Returns tt w' /\
    objects w' = objects w ++ [r] /\
    activeObjects w' = activeObjects w /\
    trace w' = trace w ++ [ev_deactivate r; ev_notify_one] /\
    count_occ Nat.eq_dec (objects w') r =
    S (count_occ Nat.eq_dec (objects w) r).
Proof.
  intros Hr Hd. rewrite releaseObject_spec, Hd.
  eexists. split; [reflexivity|]. simpl.
  rewrite (notin_remove Nat.eq_dec _ _ Hr), count_occ_snoc.
  destruct (Nat.eq_dec r r); [|congruence].
  repeat split; lia.
Qed.

Lemma C2_release_of_inactive_is_unchecked_witness :
  let w := run Object [Request; Release 0] (ObjectPool_2 1 false) in
  ~ In 0 (activeObjects w) /\
  exists w',
    releaseObject Object 0 w = Returns tt w' /\
    objects w' = objects w ++ [0] /\
    activeObjects w' = activeObjects w /\
    trace w' = trace w ++ [ev_deactivate 0; ev_notify_one] /\
    count_occ Nat.eq_dec (objects w') 0 =
    S (count_occ Nat.eq_dec (objects w) 0).
Proof.
  assert (H : ~ In 0 (activeObjects
                        (run Object [Request; Release 0]
                             (ObjectPool_2 1 false)))).
  { vm_compute. intros []. }
  split; [exact H|].
  exact (C2_release_of_inactive_is_unchecked Object 0 _ H eq_refl).
Defined.

(** C2 as stated fails: the second release of object 0 returns normally and
    leaves it in the queue twice. *)
Lemma C2_double_release_not_rejected :
  ~ release_checked Object 0
      (run Object [Request; Release 0] (ObjectPool_2 1 false)).
Proof.
  intro H. destruct H as (w' & E & _).
  - vm_compute. intros [].
  - vm_compute in E. discriminate E.
Qed.

Lemma double_release_duplicates :
  objects (run Object [Request; Release 0; Release 0] (ObjectPool_2 1 false))
  = [0; 0].
Proof. reflexivity. Qed.

(** ** A request on a growable pool, alone *)

(** A call of [requestObject] on a pool constructed with [expandable = true],
    with no other thread moving during the call: it does not block.  When
    [objects] is non-empty its front is activated and returned and nothing is
    allocated; when [objects] is empty exactly one object is allocated and
    that object is the one activated and returned; the thread reaches its
    return in seven statements or fewer and never asks for the mutex. *)
Lemma growable_request_alone (w : ObjectPool) :
  expandable w = true ->
  (forall R w', requestObject R w <> Blocks w') /\
  (forall obj rest, objects w = obj :: rest ->
     requestObject Object w =
     Returns obj (mkPool true rest (activeObjects w ++ [obj])
                         (updateThread w) (stopUpdateFlag w) (next_object w)
                         (trace w ++ [ev_activate obj]))) /\
  (objects w = [] ->
     requestObject Object w =
     Returns (next_object w)
             (mkPool true [] (activeObjects w ++ [next_object w])
                     (updateThread w) (stopUpdateFlag w) (S (next_object w))
                     (trace w ++ [ev_new (next_object w);
                                  ev_activate (next_object w)]))) /\
  (forall c t, pool c = w -> threads c t = L82 ->
     exists c', exec Object (repeat t (if empty (objects w) then 7 else 6)) c
                = Some c' /\
                threads c' t = Returned (Some (next_grant w))).
Proof.
  intro E. repeat split.
  - intros R w' H.
    destruct (request_cases R w) as [[H0 E0]|[[H0 E0]|(obj & rest & H0)]].
    + congruence.
    + rewrite requestObject_empty_grow in H by assumption. cbv zeta in H.
      destruct (activate_raises R (next_object w)); discriminate.
    + rewrite (requestObject_nonempty R w H0) in H. cbv zeta in H.
      destruct (activate_raises R obj); discriminate.
  - intros obj rest H. rewrite (requestObject_nonempty Object w H).
    simpl. unfold set_activeObjects. simpl. now rewrite E.
  - intro H. rewrite requestObject_empty_grow by assumption. reflexivity.
  - intros c t Hw Ht. subst w. unfold next_grant.
    destruct (objects (pool c)) as [|obj rest] eqn:H; simpl.
    + unfold step at 1. rewrite Ht, E. simpl.
      unfold step at 1. simpl. rewrite Nat.eqb_refl, H. simpl.
      unfold step at 1. simpl. rewrite Nat.eqb_refl.
      unfold step at 1. simpl. rewrite Nat.eqb_refl, H. simpl.
      unfold step at 1. simpl. rewrite Nat.eqb_refl, H. simpl.
      unfold step at 1. simpl. rewrite Nat.eqb_refl.
      unfold step at 1. simpl. rewrite Nat.eqb_refl.
      eexists. split; [reflexivity|]. simpl. now rewrite Nat.eqb_refl.
    + unfold step at 1. rewrite Ht, E. simpl.
      unfold step at 1. simpl. rewrite Nat.eqb_refl, H. simpl.
      unfold step at 1. simpl. rewrite Nat.eqb_refl, H. simpl.
      unfold step at 1. simpl. rewrite Nat.eqb_refl, H. simpl.
      unfold step at 1. simpl. rewrite Nat.eqb_refl.
      unfold step at 1. simpl. rewrite Nat.eqb_refl.
      eexists. split; [reflexivity|]. simpl. now rewrite Nat.eqb_refl.
Qed.

(** ** A raising [activate] (C6) *)





(** ** A raising [deactivate] (C7) *)

(** C7, as the code has it: when [deactivate] raises during [releaseObject]
    of an active object the exception reaches the caller and lines 105-107 are
    not executed: the object stays in [activeObjects], [objects] is unchanged
    and no waiter is notified. *)
Theorem C7_deactivate_failure_skips_the_move
        (R : Resource) (r : ptr) (w : ObjectPool) :
  In r (activeObjects w) ->
  deactivate_raises R r = true ->
  exists w',
    releaseObject R r w = Raises w' /\
    In r (activeObjects w') /\
    activeObjects w' = activeObjects w /\
    objects w' = objects w /\
    trace w' = trace w ++ [ev_deactivate r].
Proof.
  intros Hin Hd. rewrite releaseObject_spec, Hd.
  eexists. split; [reflexivity|]. simpl. auto.
Qed.

Lemma C7_deactivate_failure_skips_the_move_witness :
  let w := run FailingDeactivate [Request] (ObjectPool_2 1 false) in
  In 0 (activeObjects w) /\
  exists w',
    releaseObject FailingDeactivate 0 w = Raises w' /\
    In 0 (activeObjects w') /\
    activeObjects w' = activeObjects w /\
    objects w' = objects w /\
    trace w' = trace w ++ [ev_deactivate 0].
Proof.
  assert (H : In 0 (activeObjects
                      (run FailingDeactivate [Request] (ObjectPool_2 1 false)))).
  { vm_compute. now left. }
  split; [exact H|].
  exact (C7_deactivate_failure_skips_the_move FailingDeactivate 0 _ H eq_refl).
Defined.

(** C7 as stated fails: after the failed release object 0 is still active and
    [objects] is still empty. *)
Lemma C7_failed_deactivate_keeps_object_active :
  ~ deactivate_failure_completes FailingDeactivate 0
      (run FailingDeactivate [Request] (ObjectPool_2 1 false)).
Proof.
  intro H. destruct H as (w' & E & _ & Hin).
  - vm_compute. now left.
  - reflexivity.
  - vm_compute in E. injection E as <-. vm_compute in Hin. exact Hin.
Qed.

(** ** The two constructors (C10) *)

(** C10: for every [n] the one-argument constructor builds the same pool as
    the two-argument constructor with [expandable = false]: [n] objects in
    [objects] (none for a negative [n]), nothing active, the non-growable
    policy, the update thread started; so every sequence of calls and every
    schedule gives the same result on both. *)
Theorem C10_one_argument_constructor (n : Z) :
  ObjectPool_1 n = ObjectPool_2 n false /\
  objects (ObjectPool_1 n) = seq 0 (Z.to_nat n) /\
  Z.of_nat (length (objects (ObjectPool_1 n))) = Z.max 0 n /\
  creations (ObjectPool_1 n) = length (objects (ObjectPool_1 n)) /\
  activeObjects (ObjectPool_1 n) = [] /\
  expandable (ObjectPool_1 n) = false /\
  updateThread (ObjectPool_1 n) = true /\
  stopUpdateFlag (ObjectPool_1 n) = false /\
  (forall R cs,
     responses R cs (ObjectPool_1 n) = responses R cs (ObjectPool_2 n false) /\
     run R cs (ObjectPool_1 n) = run R cs (ObjectPool_2 n false)) /\
  (forall R entry s,
     exec R s (boot (ObjectPool_1 n) entry) =
     exec R s (boot (ObjectPool_2 n false) entry)).
Proof.
  assert (E : ObjectPool_1 n = ObjectPool_2 n false) by reflexivity.
  rewrite E, ObjectPool_2_spec. simpl. repeat split.
  - rewrite length_seq. lia.
  - unfold creations. simpl. rewrite filter_app. simpl.
    rewrite length_app, length_seq. simpl.
    assert (F : forall l, filter (fun e => match e with ev_new _ => true
                                           | _ => false end) (map ev_new l)
                          = map ev_new l).
    { induction l as [|a l IH]; simpl; congruence. }
    rewrite F, length_map, length_seq. lia.
Qed.

(** ** Teardown (C5) *)


(** The force-release loop never runs out of iterations, also when
    [activeObjects] has repeated entries. *)
Lemma release_active_total (fuel : nat) (w : ObjectPool) :
  length (activeObjects w) <= fuel ->
  exists w', release_active Object fuel w = Some (Returns tt w') /\
             activeObjects w' = [].
Proof.
  revert w. induction fuel as [|fuel IH]; intros w L.
  - destruct (activeObjects w) eqn:H; [|simpl in L; lia].
    exists w. simpl. rewrite H. auto.
  - destruct (activeObjects w) as [|obj rest] eqn:H.
    + exists w. simpl. rewrite H. auto.
    + cbn [release_active]. rewrite H, releaseObject_spec.
      cbn [deactivate_raises Object]. apply IH.
      cbn [activeObjects].
      assert (K : In obj (activeObjects w)) by (rewrite H; now left).
      apply (remove_length_lt Nat.eq_dec) in K.
      rewrite H in K at 2. simpl in L, K.
      lia.
Qed.

Lemma delete_objects_spec (q : list ptr) (w : ObjectPool) :
  objects w = q ->
  delete_objects q w =
  mkPool (expandable w) [] (activeObjects w) (updateThread w)
         (stopUpdateFlag w) (next_object w) (trace w ++ map ev_delete q).
Proof.
  revert w. induction q as [|p q IH]; intros w H.
  - destruct w; simpl in *. subst. now rewrite app_nil_r.
  - simpl. rewrite IH; simpl.
    + now rewrite <- app_assoc.
    + now rewrite H.
Qed.



Lemma count_deleted (l : list ptr) (e : event) :
  count_occ event_eq_dec (map ev_delete l) e =
  match e with
  | ev_delete p => count_occ Nat.eq_dec l p
  | _ => 0
  end.
Proof.
  induction l as [|a l IH]; simpl.
  - now destruct e.
  - rewrite IH. destruct e; count_cases; try congruence; try lia.
Qed.

Lemma frame_run_call (R : Resource) (c : call) (w : ObjectPool) :
  updateThread (snd (run_call R c w)) = updateThread w /\
  stopUpdateFlag (snd (run_call R c w)) = stopUpdateFlag w /\
  forall p, deletions p (snd (run_call R c w)) = deletions p w.
Proof.
  destruct c as [|r|]; simpl.
  - destruct (request_cases R w) as [[H E]|[[H E]|(obj & rest & H)]].
    + now rewrite requestObject_empty_fixed.
    + rewrite requestObject_empty_grow by assumption. simpl.
      destruct (activate_raises R (next_object w)); simpl;
        repeat split; intro p; unfold_counts; count_cases; lia.
    + rewrite (requestObject_nonempty R w H). simpl.
      destruct (activate_raises R obj); simpl;
        repeat split; intro p; unfold_counts; count_cases; lia.
  - rewrite releaseObject_spec.
    destruct (deactivate_raises R r); simpl;
      repeat split; intro p; unfold_counts; count_cases; lia.
  - unfold updateLoop_pass. destruct (stopUpdateFlag w) eqn:E; simpl;
      rewrite ?update_each_spec; simpl; repeat split; auto.
    intro p. unfold deletions. simpl. rewrite count_occ_app.
    assert (Z : count_occ event_eq_dec (map ev_update (activeObjects w))
                          (ev_delete p) = 0).
    { apply count_occ_not_In. intro HI. apply in_map_iff in HI.
      destruct HI as (q & Hq & _). discriminate. }
    lia.
Qed.

Lemma frame_run (R : Resource) (cs : list call) (w : ObjectPool) :
  updateThread (run R cs w) = updateThread w /\
  stopUpdateFlag (run R cs w) = stopUpdateFlag w /\
  forall p, deletions p (run R cs w) = deletions p w.
Proof.
  revert w. induction cs as [|c cs IH]; intro w; simpl; auto.
  destruct (IH (snd (run_call R c w))) as (H1 & H2 & H3).
  destruct (frame_run_call R c w) as (H4 & H5 & H6).
  split; [congruence|]. split; [congruence|].
  intro p. now rewrite H3.
Qed.

Lemma well_formed_NoDup_active (w : ObjectPool) :
  well_formed w -> NoDup (activeObjects w).
Proof.
  intro WF. apply (NoDup_count_occ Nat.eq_dec). intro p.
  destruct (WF p) as [H _]. unfold copies in H. lia.
Qed.

(** [join] waits as long as the stop flag is clear. *)
Lemma join_needs_stop_flag (w : ObjectPool) :
  updateThread w = true -> stopUpdateFlag w = false ->
  join w = Blocks w.
Proof.
  intros HU HF. unfold join, updateLoop_pass. now rewrite HU, HF.
Qed.

(** ** Running the machine *)

Lemma exec_app (R : Resource) (s1 s2 : list tid) (c : Config) :
  exec R (s1 ++ s2) c =
  match exec R s1 c with
  | Some c' => exec R s2 c'
  | None => None
  end.
Proof.
  revert c. induction s1 as [|t s1 IH]; intro c; simpl; [reflexivity|].
  destruct (step R t c); auto.
Qed.

Lemma repeat_add (t : tid) (n m : nat) :
  repeat t (n + m) = repeat t n ++ repeat t m.
Proof. induction n; simpl; congruence. Qed.

Ltac cfg_simpl :=
  unfold lock_then in *;
  repeat (progress (cbn [pool mutex waiting threads set_pc set_pool set_mutex
                         set_waiting] in *;
                    rewrite ?Nat.eqb_refl in * )).

Ltac lands_here :=
  repeat split; cfg_simpl; try reflexivity;
  let t' := fresh "t'" in
  let Hne := fresh "Hne" in
  intros t' Hne; apply Nat.eqb_neq in Hne; now rewrite ?Hne.

(** One statement of thread [t], given its program counter. *)
Ltac step_at H :=
  unfold step at 1; rewrite H; cfg_simpl.

(** ** The update thread (C8) *)

(** From the loop test of line 39 with [k] elements left, the update thread
    calls [update] on each of them in list order, leaves the body and is
    back at the loop header of line 37 with the mutex released. *)
Lemma updater_finishes_pass (R : Resource) (k i : nat) (c : Config) (t : tid) :
  threads c t = L39 i ->
  i + k = length (activeObjects (pool c)) ->
  exists c',
    exec R (repeat t (2 * k + 2)) c = Some c' /\
    lands c' (update_each (skipn i (activeObjects (pool c))) (pool c))
          None (waiting c) t L37 c.
Proof.
  revert i c. induction k as [|k IH]; intros i c Ht Hlen.
  - simpl. step_at Ht.
    assert (E : Nat.ltb i (length (activeObjects (pool c))) = false)
      by (apply Nat.ltb_ge; lia).
    rewrite E. unfold step at 1. cfg_simpl.
    eexists. split; [reflexivity|].
    rewrite skipn_all2 by lia. simpl. lands_here.
  - replace (2 * S k + 2) with (2 + (2 * k + 2)) by lia.
    rewrite repeat_add, exec_app. simpl.
    step_at Ht.
    assert (E : Nat.ltb i (length (activeObjects (pool c))) = true)
      by (apply Nat.ltb_lt; lia).
    rewrite E. unfold step at 1. cfg_simpl.
    destruct (nth_error (activeObjects (pool c)) i) as [obj|] eqn:Hn.
    2:{ apply nth_error_None in Hn. lia. }
    match goal with
    | |- context [exec R _ ?c1] =>
        destruct (IH (S i) c1) as (c' & Hex & Hl)
    end.
    + cfg_simpl. reflexivity.
    + cfg_simpl. simpl. lia.
    + exists c'. split; [exact Hex|].
      cfg_simpl. simpl in Hl.
      assert (Hs : skipn i (activeObjects (pool c)) =
                   obj :: skipn (S i) (activeObjects (pool c))).
      { clear - Hn. revert i Hn.
        induction (activeObjects (pool c)) as [|a l IHl]; intros [|i] Hn;
          simpl in *; try discriminate.
        - now injection Hn as ->.
        - now apply IHl. }
      rewrite Hs. simpl.
      destruct Hl as (A & B & C & D & F).
      repeat split; auto.
      intros t' Hne. rewrite F by assumption. cfg_simpl.
      apply Nat.eqb_neq in Hne. now rewrite !Hne.
Qed.


Lemma count_updated (l : list ptr) (e : event) :
  count_occ event_eq_dec (map ev_update l) e =
  match e with
  | ev_update p => count_occ Nat.eq_dec l p
  | _ => 0
  end.
Proof.
  induction l as [|a l IH]; simpl.
  - now destruct e.
  - rewrite IH. destruct e; count_cases; try congruence; try lia.
Qed.




(** ** One thread alone agrees with the call-level semantics *)

Ltac pool_simpl :=
  cbn [expandable objects activeObjects updateThread stopUpdateFlag
       next_object trace set_objects set_activeObjects set_updateThread
       set_stopUpdateFlag set_next_object emit push_new_Object objects_push
       objects_pop activeObjects_push_back activeObjects_remove] in *.

Ltac mstep := unfold step at 1; cfg_simpl; pool_simpl.

Ltac pool_unfold :=
  unfold emit, objects_pop, push_new_Object, objects_push,
    activeObjects_push_back, activeObjects_remove, set_objects,
    set_activeObjects, set_next_object, set_updateThread,
    set_stopUpdateFlag in *;
  simpl.

Ltac use_facts :=
  repeat match goal with
         | H : objects _ = _ |- _ => rewrite H
         | H : expandable _ = _ |- _ => rewrite H
         | H : stopUpdateFlag _ = _ |- _ => rewrite H
         end.

Ltac lands_done :=
  unfold lands; cfg_simpl; pool_unfold; use_facts; simpl;
  repeat split; rewrite <- ?app_assoc; simpl; auto;
  try (let t' := fresh "t'" in
       let Hne := fresh "Hne" in
       intros t' Hne; apply Nat.eqb_neq in Hne; now rewrite ?Hne).

(** [requestObject] run by thread [t] with no other thread stepping in
    between, from a configuration where the mutex is free. *)
Lemma requestObject_machine (R : Resource) (c : Config) (t : tid) :
  threads c t = L82 -> mutex c = None ->
  match requestObject R (pool c) with
  | Returns obj w' =>
      exists n c', exec R (repeat t n) c = Some c' /\
                   lands c' w' None (waiting c) t (Returned (Some obj)) c
  | Raises w' =>
      exists n c', exec R (repeat t n) c = Some c' /\
                   lands c' w' None (waiting c) t Thrown c
  | Blocks w' =>
      exists n c', exec R (repeat t n) c = Some c' /\
                   lands c' w' None (waiting c ++ [t]) t L86w c /\
                   step R t c' = None
  | Undefined _ => False
  end.
Proof.
  intros Ht Hm.
  destruct (request_cases R (pool c)) as [[H E]|[[H E]|(obj & rest & H)]].
  - rewrite requestObject_empty_fixed by assumption. cbv iota.
    exists 4. simpl.
    mstep. rewrite Ht, E. simpl.
    mstep. rewrite Hm. cfg_simpl.
    mstep. rewrite H. simpl.
    mstep.
    eexists. split; [reflexivity|]. split.
    + lands_here.
    + mstep. unfold is_waiting. cfg_simpl.
      rewrite existsb_app. simpl. rewrite Nat.eqb_refl.
      now rewrite orb_true_r.
  - rewrite requestObject_empty_grow by assumption. cbv zeta.
    destruct (activate_raises R (next_object (pool c))) eqn:HA; cbv iota.
    + exists 6. simpl.
      mstep. rewrite Ht, E. simpl.
      mstep. rewrite H. simpl.
      mstep.
      mstep. rewrite H. simpl.
      mstep. rewrite H. simpl.
      mstep. rewrite HA.
      eexists. split; [reflexivity|]. rewrite ?H, ?E. lands_done.
    + exists 7. simpl.
      mstep. rewrite Ht, E. simpl.
      mstep. rewrite H. simpl.
      mstep.
      mstep. rewrite H. simpl.
      mstep. rewrite H. simpl.
      mstep. rewrite HA.
      mstep.
      eexists. split; [reflexivity|]. rewrite ?H, ?E. lands_done.
  - rewrite (requestObject_nonempty R (pool c) H). cbv zeta.
    destruct (expandable (pool c)) eqn:E;
      destruct (activate_raises R obj) eqn:HA; cbv iota.
    + exists 5. simpl.
      mstep. rewrite Ht, E. simpl.
      mstep. rewrite H. simpl.
      mstep. rewrite H.
      mstep. rewrite H.
      mstep. rewrite HA.
      eexists. split; [reflexivity|]. rewrite ?H, ?E. lands_done.
    + exists 6. simpl.
      mstep. rewrite Ht, E. simpl.
      mstep. rewrite H. simpl.
      mstep. rewrite H.
      mstep. rewrite H.
      mstep. rewrite HA.
      mstep.
      eexists. split; [reflexivity|]. rewrite ?H, ?E. lands_done.
    + exists 7. simpl.
      mstep. rewrite Ht, E. simpl.
      mstep. rewrite Hm. cfg_simpl.
      mstep. rewrite H. simpl.
      mstep.
      mstep. rewrite H.
      mstep. rewrite H.
      mstep. rewrite HA.
      eexists. split; [reflexivity|]. rewrite ?H, ?E. lands_done.
    + exists 8. simpl.
      mstep. rewrite Ht, E. simpl.
      mstep. rewrite Hm. cfg_simpl.
      mstep. rewrite H. simpl.
      mstep.
      mstep. rewrite H.
      mstep. rewrite H.
      mstep. rewrite HA.
      mstep.
      eexists. split; [reflexivity|]. rewrite ?H, ?E. lands_done.
Qed.

(** [releaseObject(obj)] run by thread [t] alone, from a configuration where
    the mutex is free. *)
Lemma releaseObject_machine (R : Resource) (c : Config) (t : tid)
      (k : caller) (obj : ptr) :
  threads c t = L103 k obj -> mutex c = None ->
  match releaseObject R obj (pool c) with
  | Returns _ w' =>
      exists c', exec R (repeat t 6) c = Some c' /\
                 lands c' w' None (tl (waiting c)) t
                       (match k with
                        | FromClient => Returned None
                        | FromDtor => L70
                        end) c
  | Raises w' =>
      exists c', exec R (repeat t 2) c = Some c' /\
                 lands c' w' None (waiting c) t Thrown c
  | _ => False
  end.
Proof.
  intros Ht Hm. rewrite releaseObject_spec.
  destruct (deactivate_raises R obj) eqn:HD; simpl.
  - mstep. rewrite Ht, Hm. cfg_simpl.
    mstep. rewrite HD.
    eexists. split; [reflexivity|]. lands_done.
  - mstep. rewrite Ht, Hm. cfg_simpl.
    mstep. rewrite HD.
    mstep. mstep. mstep. mstep.
    eexists. split; [reflexivity|]. lands_done.
Qed.

(** ** Where the mutex is held (C3) *)

Lemma lock_discipline_step (R : Resource) (t : tid) (c c' : Config) :
  lock_discipline c -> step R t c = Some c' -> lock_discipline c'.
Proof.
  intros I Hs t' Hu.
  pose proof (I t) as It. pose proof (I t') as It'.
  unfold step in Hs.
  destruct (threads c t) eqn:Ht; cfg_simpl;
    repeat match type of Hs with
           | context [match ?x with _ => _ end] => destruct x eqn:?
           | context [if ?x then _ else _] => destruct x eqn:?
           end;
    try discriminate; injection Hs as <-; cfg_simpl.
  all: destruct (Nat.eqb_spec t' t) as [Heq|Hne]; [rewrite Heq in *|];
    simpl in *; try discriminate; auto;
    try (specialize (It eq_refl)); try (specialize (It' Hu));
    congruence.
Qed.

Lemma lock_discipline_perform (R : Resource) (a : action) (c c' : Config) :
  lock_discipline c -> perform R a c = Some c' -> lock_discipline c'.
Proof.
  destruct a as [t|t]; simpl; [apply lock_discipline_step|].
  intros I Hs. unfold spurious_wake in Hs.
  destruct (threads c t); try discriminate.
  destruct (is_waiting t c); [|discriminate].
  injection Hs as <-. exact I.
Qed.

Lemma lock_discipline_run (R : Resource) (s : list action) (c c' : Config) :
  lock_discipline c -> run_actions R s c = Some c' -> lock_discipline c'.
Proof.
  revert c. induction s as [|a s IH]; intros c I H; simpl in H.
  - now injection H as <-.
  - destruct (perform R a c) as [c1|] eqn:Hs; [|discriminate].
    eauto using lock_discipline_perform.
Qed.

Lemma run_actions_Run (R : Resource) (s : list tid) (c : Config) :
  run_actions R (map Run s) c = exec R s c.
Proof.
  revert c. induction s as [|t s IH]; intro c; simpl; [reflexivity|].
  destruct (step R t c); auto.
Qed.

Lemma lock_discipline_exec (R : Resource) (s : list tid) (c c' : Config) :
  lock_discipline c -> exec R s c = Some c' -> lock_discipline c'.
Proof.
  rewrite <- run_actions_Run. apply lock_discipline_run.
Qed.

Lemma lock_discipline_boot (w : ObjectPool) (entry : list pc) :
  Forall (fun p => under_lock p = false) entry ->
  lock_discipline (boot w entry).
Proof.
  intros F [|i] Hu; simpl in *; [discriminate|].
  destruct (nth_in_or_default i entry NoThread) as [Hin|Hd].
  - rewrite Forall_forall in F. apply F in Hin. congruence.
  - rewrite Hd in Hu. discriminate.
Qed.

(** In every configuration reached from construction, whatever the schedule,
    a thread inside [releaseObject] or inside the body of [updateLoop] owns
    the mutex. *)
Lemma locked_regions_own_the_mutex (R : Resource) (w : ObjectPool)
      (entry : list pc) (s : list action) (c : Config) (t : tid) :
  Forall (fun p => under_lock p = false) entry ->
  run_actions R s (boot w entry) = Some c ->
  under_lock (threads c t) = true ->
  mutex c = Some t.
Proof.
  intros F H. revert t.
  apply (lock_discipline_run R s (lock_discipline_boot w F) H).
Qed.

(** C3 says that every change of [objects] and [activeObjects] happens under
    the mutex, so that the move from free to active in [requestObject] is
    atomic.  The code does not do that.  [releaseObject] and the body of
    [updateLoop] do run with the mutex owned by the running thread
    ([locked_regions_own_the_mutex]), but in [requestObject] the
    [unique_lock] of line 83 is destroyed at line 88, so the pop of line 95
    and the [push_back] of line 97 run with the mutex free, and the growable
    branch of lines 90-92 never acquires it.  Two requesting threads can
    therefore both read the same front object: both calls return object 0,
    object 1 is popped and lost, and object 0 is in [activeObjects] twice.  A
    [push_back] can also land while the update thread owns the mutex and
    iterates over [activeObjects].  In general the statements of lines 91,
    95 and 97 execute whoever owns the mutex. *)
Theorem C3_request_moves_objects_without_the_mutex :
  (exists c,
     exec Object [1; 1; 1; 1; 1] (boot (ObjectPool_2 2 false) [L82; L82])
     = Some c /\
     threads c 1 = L95 0 /\ mutates (threads c 1) = true /\
     mutex c = None) /\
  (exists c,
     exec Object [1; 1; 1; 1;  2; 2; 2; 2;  1; 2;  1; 2;  1; 1;  2; 2]
          (boot (ObjectPool_2 2 false) [L82; L82]) = Some c /\
     threads c 1 = Returned (Some 0) /\
     threads c 2 = Returned (Some 0) /\
     activeObjects (pool c) = [0; 0] /\
     objects (pool c) = []) /\
  (exists c,
     exec Object [1; 1] (boot (ObjectPool_2 0 true) [L82]) = Some c /\
     threads c 1 = L91 /\ mutates (threads c 1) = true /\
     mutex c = None) /\
  (exists c c',
     exec Object [1; 1; 1; 1; 1; 1; 1;  0; 0]
          (boot (ObjectPool_2 1 false) [L82]) = Some c /\
     threads c 1 = L97 0 /\ threads c updater = L39 0 /\
     mutex c = Some updater /\
     activeObjects (pool c) = [] /\
     step Object 1 c = Some c' /\
     mutex c' = Some updater /\
     activeObjects (pool c') = [0]) /\
  (forall R c t obj rest,
     threads c t = L95 obj -> objects (pool c) = obj :: rest ->
     exists c', step R t c = Some c' /\ mutex c' = mutex c /\
                objects (pool c') = rest) /\
  (forall R c t obj,
     threads c t = L97 obj ->
     exists c', step R t c = Some c' /\ mutex c' = mutex c /\
                activeObjects (pool c') = activeObjects (pool c) ++ [obj]) /\
  (forall R c t,
     threads c t = L91 ->
     exists c', step R t c = Some c' /\ mutex c' = mutex c /\
                objects (pool c') = objects (pool c) ++ [next_object (pool c)]).
Proof.
  split; [|split; [|split; [|split; [|split; [|split]]]]].
  - eexists. split; [vm_compute; reflexivity|]. repeat split.
  - eexists. split; [vm_compute; reflexivity|]. repeat split.
  - eexists. split; [vm_compute; reflexivity|]. repeat split.
  - eexists. eexists. split; [vm_compute; reflexivity|].
    split; [reflexivity|]. split; [reflexivity|]. split; [reflexivity|].
    split; [reflexivity|]. split; [vm_compute; reflexivity|].
    split; reflexivity.
  - intros R c t obj rest Ht Ho. unfold step. rewrite Ht, Ho.
    eexists. split; [reflexivity|]. cfg_simpl. pool_unfold.
    now rewrite Ho.
  - intros R c t obj Ht. unfold step. rewrite Ht.
    eexists. split; [reflexivity|]. cfg_simpl. pool_unfold. auto.
  - intros R c t Ht. unfold step. rewrite Ht.
    eexists. split; [reflexivity|]. cfg_simpl. pool_unfold. auto.
Qed.

(** ** Overlapping requests on a growable pool (C4) *)

(** C4 fails for requests that overlap: the growable branch of lines 90-92
    and the move of lines 94-97 run without the mutex.  Two threads call
    [requestObject] on a growable pool whose queue is empty.  In one
    schedule the first creates an object, the second finds the queue
    non-empty, takes that object and returns it, and the first, which
    created it, calls [front()] on an empty queue: one object was created
    for two requests.  In another schedule both find the queue empty, both
    create an object, both read the same front and both return it: the
    second new object is popped and ends in neither collection. *)
Theorem C4_overlapping_growable_requests_collide
        (c : Config) (t1 t2 : tid) :
  t1 <> t2 ->
  threads c t1 = L82 -> threads c t2 = L82 ->
  expandable (pool c) = true -> objects (pool c) = [] ->
  let p := next_object (pool c) in
  (exists c',
     exec Object [t1; t1; t1;  t2; t2; t2; t2;  t1;  t2; t2] c = Some c' /\
     threads c' t1 = Crashed /\
     threads c' t2 = Returned (Some p) /\
     trace (pool c') = trace (pool c) ++ [ev_new p; ev_activate p] /\
     objects (pool c') = [] /\
     activeObjects (pool c') = activeObjects (pool c) ++ [p]) /\
  (exists c',
     exec Object [t1; t2;  t1; t2;  t1; t2;  t1; t2;  t1; t2;  t1; t2;  t1; t2]
          c = Some c' /\
     threads c' t1 = Returned (Some p) /\
     threads c' t2 = Returned (Some p) /\
     trace (pool c') =
       trace (pool c) ++
       [ev_new p; ev_new (S p); ev_activate p; ev_activate p] /\
     objects (pool c') = [] /\
     activeObjects (pool c') = activeObjects (pool c) ++ [p; p]).
Proof.
  intros Hne H1 H2 He Ho. cbv zeta.
  assert (E12 : Nat.eqb t1 t2 = false) by (apply Nat.eqb_neq; auto).
  assert (E21 : Nat.eqb t2 t1 = false) by (apply Nat.eqb_neq; auto).
  split; simpl.
  - mstep. rewrite H1, He. simpl.                      (* t1: 82 *)
    mstep. rewrite Ho. simpl.                          (* t1: 90 *)
    mstep.                                             (* t1: 91 *)
    mstep. rewrite E21, H2, He. simpl.                 (* t2: 82 *)
    mstep. rewrite Ho. simpl.                          (* t2: 90 *)
    mstep. rewrite Ho. simpl.                          (* t2: 94 *)
    mstep. rewrite Ho. simpl.                          (* t2: 95 *)
    mstep. rewrite E12. cfg_simpl. pool_simpl.
    rewrite Ho. simpl.                                 (* t1: 94 *)
    mstep. rewrite E21. cfg_simpl. pool_simpl.
    cbn [activate_raises Object].                      (* t2: 96 *)
    mstep.                                             (* t2: 97 *)
    eexists. split; [reflexivity|]. cfg_simpl. rewrite E12.
    pool_simpl. rewrite Ho. simpl.
    rewrite <- !app_assoc. auto.
  - mstep. rewrite H1, He. simpl.                      (* t1: 82 *)
    mstep. rewrite E21, H2, He. simpl.                 (* t2: 82 *)
    mstep. rewrite E12. cfg_simpl. rewrite Ho. simpl.  (* t1: 90 *)
    mstep. rewrite E21. cfg_simpl. rewrite Ho. simpl.  (* t2: 90 *)
    mstep. rewrite E12. cfg_simpl.                     (* t1: 91 *)
    mstep. rewrite E21. cfg_simpl. pool_simpl.         (* t2: 91 *)
    mstep. rewrite E12. cfg_simpl. pool_simpl.
    rewrite Ho. simpl.                                 (* t1: 94 *)
    mstep. rewrite E21. cfg_simpl. pool_simpl.
    rewrite Ho. simpl.                                 (* t2: 94 *)
    mstep. rewrite E12. cfg_simpl. pool_simpl.
    rewrite Ho. simpl.                                 (* t1: 95 *)
    mstep. rewrite E21. cfg_simpl. pool_simpl.
    rewrite Ho. simpl.                                 (* t2: 95 *)
    mstep. rewrite E12. cfg_simpl. pool_simpl.
    cbn [activate_raises Object].                      (* t1: 96 *)
    mstep. rewrite E21. cfg_simpl. pool_simpl.
    cbn [activate_raises Object].                      (* t2: 96 *)
    mstep. rewrite E12. cfg_simpl. pool_simpl.         (* t1: 97 *)
    mstep. rewrite E21. cfg_simpl. pool_simpl.         (* t2: 97 *)
    eexists. split; [reflexivity|]. cfg_simpl. rewrite ?E12, ?E21.
    cfg_simpl. pool_simpl. rewrite Ho. simpl.
    rewrite <- !app_assoc. auto.
Qed.

Lemma C4_overlapping_growable_requests_collide_witness :
  let c := boot (ObjectPool_2 0 true) [L82; L82] in
  let p := next_object (pool c) in
  (exists c',
     exec Object [1; 1; 1;  2; 2; 2; 2;  1;  2; 2] c = Some c' /\
     threads c' 1 = Crashed /\
     threads c' 2 = Returned (Some p) /\
     trace (pool c') = trace (pool c) ++ [ev_new p; ev_activate p] /\
     objects (pool c') = [] /\
     activeObjects (pool c') = activeObjects (pool c) ++ [p]) /\
  (exists c',
     exec Object [1; 2;  1; 2;  1; 2;  1; 2;  1; 2;  1; 2;  1; 2]
          c = Some c' /\
     threads c' 1 = Returned (Some p) /\
     threads c' 2 = Returned (Some p) /\
     trace (pool c') =
       trace (pool c) ++
       [ev_new p; ev_new (S p); ev_activate p; ev_activate p] /\
     objects (pool c') = [] /\
     activeObjects (pool c') = activeObjects (pool c) ++ [p; p]).
Proof.
  refine (@C4_overlapping_growable_requests_collide
            (boot (ObjectPool_2 0 true) [L82; L82]) 1 2 _
            eq_refl eq_refl eq_refl eq_refl).
  discriminate.
Defined.

(** ** Blocked requests and teardown (C9) *)

(** While both collections are empty and no thread is on a path that pushes
    to [objects], both stay empty and every thread in the wait loop stays in
    the wait loop, whatever the stop flag says and whatever the destructor
    does. *)
Lemma harmless_step (R : Resource) (t : tid) (c c' : Config) :
  objects (pool c) = [] -> activeObjects (pool c) = [] ->
  (forall t', harmless (threads c t') = true) ->
  step R t c = Some c' ->
  objects (pool c') = [] /\ activeObjects (pool c') = [] /\
  (forall t', harmless (threads c' t') = true) /\
  (forall t', in_wait_loop (threads c t') = true ->
              in_wait_loop (threads c' t') = true).
Proof.
  intros Ho Ha Hq Hs.
  pose proof (Hq t) as Hqt.
  unfold step in Hs. rewrite Ho, Ha in Hs.
  destruct (threads c t) eqn:Ht; cfg_simpl; try discriminate;
    repeat match type of Hs with
           | context [match ?x with _ => _ end] => destruct x eqn:?
           | context [if ?x then _ else _] => destruct x eqn:?
           end;
    try discriminate; injection Hs as <-; cfg_simpl; pool_simpl.
  all: split; [assumption|].
  all: split; [assumption|].
  all: split; intro t'; [specialize (Hq t')|];
    destruct (Nat.eqb_spec t' t) as [Heq|Hne];
    [rewrite Heq in *| |rewrite Heq in *|];
    simpl in *; auto; try congruence;
    let K := fresh in intro K; rewrite Ht in K; discriminate K.
Qed.

Lemma harmless_perform (R : Resource) (a : action) (c c' : Config) :
  objects (pool c) = [] -> activeObjects (pool c) = [] ->
  (forall t', harmless (threads c t') = true) ->
  perform R a c = Some c' ->
  objects (pool c') = [] /\ activeObjects (pool c') = [] /\
  (forall t', harmless (threads c' t') = true) /\
  (forall t', in_wait_loop (threads c t') = true ->
              in_wait_loop (threads c' t') = true).
Proof.
  destruct a as [t|t]; simpl; [apply harmless_step|].
  intros Ho Ha Hq Hs. unfold spurious_wake in Hs.
  destruct (threads c t); try discriminate.
  destruct (is_waiting t c); [|discriminate].
  injection Hs as <-. auto.
Qed.

Lemma harmless_run (R : Resource) (s : list action) (c c' : Config) (t : tid) :
  objects (pool c) = [] -> activeObjects (pool c) = [] ->
  (forall t', harmless (threads c t') = true) ->
  in_wait_loop (threads c t) = true ->
  run_actions R s c = Some c' ->
  objects (pool c') = [] /\ in_wait_loop (threads c' t) = true.
Proof.
  revert c. induction s as [|x s IH]; intros c Ho Ha Hq Hw H; simpl in H.
  - injection H as <-. auto.
  - destruct (perform R x c) as [c1|] eqn:Hs; [|discriminate].
    destruct (harmless_perform R x c Ho Ha Hq Hs) as (Ho1 & Ha1 & Hq1 & Hw1).
    apply (IH c1); auto.
Qed.

(** *** The destructor on the machine *)

(** The force-release loop of lines 70-72, run by the destructor thread. *)
Lemma dtor_release_loop_machine (fuel : nat) (c : Config) (d : tid) :
  threads c d = L70 -> mutex c = None ->
  length (activeObjects (pool c)) <= fuel ->
  exists w1 n c' q,
    release_active Object fuel (pool c) = Some (Returns tt w1) /\
    exec Object (repeat d n) c = Some c' /\
    lands c' w1 None q d L73 c /\
    (waiting c = [] -> q = []).
Proof.
  revert c. induction fuel as [|fuel IH]; intros c Ht Hm Hlen.
  - destruct (activeObjects (pool c)) as [|obj rest] eqn:Ha;
      [|simpl in Hlen; lia].
    exists (pool c), 1, (set_pc d L73 c), (waiting c).
    simpl. rewrite Ha. split; [reflexivity|]. split; [|split; [|auto]].
    + mstep. now rewrite Ht, Ha.
    + lands_done.
  - destruct (activeObjects (pool c)) as [|obj rest] eqn:Ha.
    + exists (pool c), 1, (set_pc d L73 c), (waiting c).
      simpl. rewrite Ha. split; [reflexivity|]. split; [|split; [|auto]].
      * mstep. now rewrite Ht, Ha.
      * lands_done.
    + cbn [release_active]. rewrite Ha.
      set (c2 := set_pc d (L103 FromDtor obj) (set_pc d L71 c)).
      assert (H2 : exec Object (repeat d 2) c = Some c2).
      { simpl. mstep. rewrite Ht, Ha. simpl. mstep. now rewrite Ha. }
      assert (Ht2 : threads c2 d = L103 FromDtor obj)
        by (unfold c2; cfg_simpl; reflexivity).
      assert (Hm2 : mutex c2 = None) by exact Hm.
      pose proof (@releaseObject_machine Object c2 d FromDtor obj Ht2 Hm2)
        as Hrel.
      change (pool c2) with (pool c) in Hrel.
      rewrite releaseObject_spec in *. cbn [deactivate_raises Object] in *.
      destruct Hrel as (c3 & H3 & (A3 & B3 & C3 & D3 & F3)).
      destruct (IH c3 D3 B3) as (w1 & n & c' & q & Hra & Hex & Hl & Hq).
      { rewrite A3. cbn [activeObjects].
        assert (K : In obj (activeObjects (pool c))) by (rewrite Ha; now left).
        apply (remove_length_lt Nat.eq_dec) in K. rewrite Ha in K at 2.
        simpl in K, Hlen. lia. }
      rewrite A3 in Hra.
      exists w1, (2 + (6 + n)), c', q.
      split; [exact Hra|]. split; [|split].
      * rewrite repeat_add, exec_app, H2.
        rewrite repeat_add, exec_app, H3. exact Hex.
      * destruct Hl as (A & B & C & D & F).
        repeat split; auto. intros t' Hne.
        rewrite F, F3 by assumption. unfold c2. cfg_simpl.
        apply Nat.eqb_neq in Hne. now rewrite !Hne.
      * intro Hw. apply Hq. rewrite C3. unfold c2. cfg_simpl.
        now rewrite Hw.
Qed.

(** The delete loop of lines 73-76. *)
Lemma dtor_delete_loop_machine (R : Resource) (q : list ptr) (c : Config)
      (d : tid) :
  objects (pool c) = q -> threads c d = L73 ->
  exists c',
    exec R (repeat d (3 * length q + 1)) c = Some c' /\
    lands c' (delete_objects q (pool c)) (mutex c) (waiting c) d
          (Returned None) c.
Proof.
  revert c. induction q as [|p q IH]; intros c Ho Ht.
  - simpl. mstep. rewrite Ht, Ho. simpl.
    eexists. split; [reflexivity|]. lands_done.
  - replace (3 * length (p :: q) + 1) with (3 + (3 * length q + 1))
      by (simpl; lia).
    rewrite repeat_add, exec_app. simpl.
    mstep. rewrite Ht, Ho. simpl.
    mstep. rewrite Ho.
    mstep.
    match goal with
    | |- context [exec R _ ?c1] => destruct (IH c1) as (c' & Hex & Hl)
    end.
    + cfg_simpl. simpl. now rewrite Ho.
    + cfg_simpl. reflexivity.
    + exists c'. split; [exact Hex|].
      destruct Hl as (A & B & C & D & F). cfg_simpl.
      repeat split; auto.
      intros t' Hne. rewrite F by assumption. cfg_simpl.
      apply Nat.eqb_neq in Hne. now rewrite !Hne.
Qed.

(** The destructor run by thread [d], with the update thread at its loop
    header, needs only those two threads to move and ends in the state the
    call-level destructor computes. *)
Lemma ObjectPool_dtor_machine (c : Config) (d : tid) :
  d <> updater ->
  threads c d = L65 -> threads c updater = L37 ->
  mutex c = None -> updateThread (pool c) = true ->
  exists w' n c',
    ObjectPool_dtor Object (pool c) = Some (Returns tt w') /\
    exec Object ([d; d; updater; d] ++ repeat d n) c = Some c' /\
    pool c' = w' /\ mutex c' = None /\ waiting c' = [] /\
    threads c' d = Returned None /\
    threads c' updater = Returned None /\
    (forall t, t <> d -> t <> updater -> threads c' t = threads c t).
Proof.
  intros Hdu Hd Hu Hm HU.
  assert (Hdu' : Nat.eqb updater d = false) by (apply Nat.eqb_neq; auto).
  assert (Hdu'' : Nat.eqb d updater = false) by (apply Nat.eqb_neq; auto).
  set (w3 := set_updateThread false
               (emit ev_thread_join
                  (emit ev_notify_all (set_stopUpdateFlag true (pool c))))).
  assert (H4 : exists c4,
             exec Object [d; d; updater; d] c = Some c4 /\
             pool c4 = w3 /\ mutex c4 = None /\ waiting c4 = [] /\
             threads c4 d = L70 /\
             threads c4 updater = Returned None /\
             forall t, t <> d -> t <> updater -> threads c4 t = threads c t).
  { simpl.
    mstep. rewrite Hd.
    mstep.
    mstep. rewrite Hdu', Hu. simpl.
    mstep. rewrite Hdu''. cfg_simpl. simpl.
    eexists. split; [reflexivity|]. cfg_simpl.
    rewrite Hdu'. repeat split; auto.
    intros t H1 H2. apply Nat.eqb_neq in H1, H2. now rewrite H1, H2. }
  destruct H4 as (c4 & Hex4 & Hp4 & Hm4 & Hw4 & Hd4 & Hu4 & Hf4).
  destruct (@dtor_release_loop_machine
              (length (activeObjects (pool c4))) c4 d Hd4 Hm4 (Nat.le_refl _))
    as (w4 & n1 & c5 & q & Hra & Hex5 & (A5 & B5 & C5 & D5 & F5) & Hq5).
  specialize (Hq5 Hw4). subst q.
  destruct (@dtor_delete_loop_machine Object (objects w4) c5 d)
    as (c6 & Hex6 & (A6 & B6 & C6 & D6 & F6)); auto.
  { now rewrite A5. }
  exists (delete_objects (objects w4) w4),
         (n1 + (3 * length (objects w4) + 1)), c6.
  split.
  - unfold ObjectPool_dtor, ObjectPool_dtor_fuel, join.
    cbn [updateThread emit set_stopUpdateFlag]. rewrite HU.
    unfold updateLoop_pass. cbn [stopUpdateFlag emit set_stopUpdateFlag negb].
    fold w3. rewrite Hp4 in Hra.
    replace (length (activeObjects (pool c)))
      with (length (activeObjects w3)) by reflexivity.
    now rewrite Hra.
  - split.
    + rewrite exec_app, Hex4, repeat_add, exec_app, Hex5. exact Hex6.
    + rewrite A5 in A6. repeat split; auto; try congruence.
      * rewrite F6, F5 by auto. exact Hu4.
      * intros t H1 H2. rewrite F6, F5 by auto. auto.
Qed.

Lemma in_wait_loop_not_left (p : pc) :
  in_wait_loop p = true -> has_left p = false.
Proof. destruct p; simpl; congruence. Qed.

(** A notified waiter that finds an object takes it and returns. *)
Lemma woken_waiter_takes_object (c : Config) (t : tid) (obj : ptr)
      (rest : list ptr) :
  threads c t = L86w -> is_waiting t c = false -> mutex c = None ->
  objects (pool c) = obj :: rest ->
  exists c',
    exec Object (repeat t 7) c = Some c' /\
    threads c' t = Returned (Some obj) /\
    objects (pool c') = rest /\
    activeObjects (pool c') = activeObjects (pool c) ++ [obj].
Proof.
  intros Ht Hw Hm Ho. simpl.
  mstep. rewrite Ht, Hw, Hm. cfg_simpl.
  mstep. rewrite Ho. simpl.
  mstep.
  mstep. rewrite Ho.
  mstep. rewrite Ho.
  mstep.
  mstep.
  eexists. split; [reflexivity|]. cfg_simpl. pool_unfold. rewrite Ho. auto.
Qed.

(** C9 fails in the code: teardown does not release a caller that is blocked
    in [requestObject].  With both collections empty and thread [t] in the
    wait set, [t] cannot move.  The destructor sets the stop flag and calls
    [notify_all], and [t], woken with the flag set, re-tests only
    [objects.empty()] and is back in the wait set three statements later:
    there is no shutdown signal it observes and no error it could return.
    The destructor joins the update thread only and reaches the closing brace
    of line 77 with [t] still inside [releaseMonitor.wait]; the members,
    [releaseMonitor] among them, are destroyed next, under a thread that is
    blocked on them.  Under no schedule, spurious wake-ups included, does
    [t] leave the wait loop. *)
Theorem C9_teardown_does_not_release_the_waiter (c : Config) (d t : tid) :
  d <> updater -> t <> d -> t <> updater ->
  threads c d = L65 -> threads c updater = L37 -> threads c t = L86w ->
  is_waiting t c = true -> mutex c = None ->
  objects (pool c) = [] -> activeObjects (pool c) = [] ->
  (forall t', t' <> d -> quiet (threads c t') = true) ->
  step Object t c = None /\
  (exists c',
     exec Object [d; d;  t; t; t] c = Some c' /\
     stopUpdateFlag (pool c') = true /\
     trace (pool c') = trace (pool c) ++ [ev_notify_all] /\
     threads c' t = L86w /\ waiting c' = [t] /\ mutex c' = None /\
     step Object t c' = None) /\
  (exists c',
     exec Object [d; d;  updater;  d; d; d] c = Some c' /\
     threads c' d = Returned None /\
     threads c' updater = Returned None /\
     trace (pool c') = trace (pool c) ++ [ev_notify_all; ev_thread_join] /\
     threads c' t = L86w) /\
  (forall s c', run_actions Object s c = Some c' ->
                in_wait_loop (threads c' t) = true /\
                has_left (threads c' t) = false).
Proof.
  intros Hdu Htd Htu Hd Hu Ht Hw Hm Ho Ha Hq.
  assert (Eud : Nat.eqb updater d = false) by (apply Nat.eqb_neq; auto).
  assert (Edu : Nat.eqb d updater = false) by (apply Nat.eqb_neq; auto).
  assert (Etd : Nat.eqb t d = false) by (apply Nat.eqb_neq; auto).
  assert (Edt : Nat.eqb d t = false) by (apply Nat.eqb_neq; auto).
  assert (Etu : Nat.eqb t updater = false) by (apply Nat.eqb_neq; auto).
  split; [|split; [|split]].
  - unfold step. now rewrite Ht, Hw.
  - simpl.
    mstep. rewrite Hd.                                 (* 65 *)
    mstep.                                             (* 66 *)
    mstep. rewrite Etd, Ht. cfg_simpl.
    unfold is_waiting. cfg_simpl. simpl. rewrite Hm.
    cfg_simpl.                                         (* woken: re-lock *)
    mstep. rewrite Ho. simpl.                          (* 84 *)
    mstep.                                             (* 86 *)
    eexists. split; [reflexivity|]. cfg_simpl. pool_simpl.
    repeat split.
    unfold step. cfg_simpl. unfold is_waiting. cfg_simpl. simpl.
    now rewrite Nat.eqb_refl.
  - simpl.
    mstep. rewrite Hd.                                 (* 65 *)
    mstep.                                             (* 66 *)
    mstep. rewrite Eud, Hu. simpl.                     (* 37: flag set *)
    mstep. rewrite Edu. cfg_simpl. simpl.              (* 67 *)
    mstep. rewrite Ha. simpl.                          (* 70 *)
    mstep. rewrite Ho. simpl.                          (* 73 *)
    eexists. split; [reflexivity|]. cfg_simpl.
    rewrite Eud, Etd, Etu. pool_simpl.
    rewrite <- !app_assoc. auto.
  - intros s c' Hrun.
    assert (Hq' : forall t', harmless (threads c t') = true).
    { intro t'. destruct (Nat.eq_dec t' d) as [->|H1]; [now rewrite Hd|].
      specialize (Hq t' H1). unfold harmless.
      destruct (threads c t'); auto. }
    assert (K : in_wait_loop (threads c' t) = true).
    { apply (@harmless_run Object s c c' t); auto. now rewrite Ht. }
    split; [exact K|]. now apply in_wait_loop_not_left.
Qed.

Lemma C9_teardown_does_not_release_the_waiter_witness :
  exists c,
    exec Object [1; 1; 1; 1] (boot (ObjectPool_2 0 false) [L82; L65])
    = Some c /\
    step Object 1 c = None /\
    (exists c',
       exec Object [2; 2;  1; 1; 1] c = Some c' /\
       stopUpdateFlag (pool c') = true /\
       trace (pool c') = trace (pool c) ++ [ev_notify_all] /\
       threads c' 1 = L86w /\ waiting c' = [1] /\ mutex c' = None /\
       step Object 1 c' = None) /\
    (exists c',
       exec Object [2; 2;  updater;  2; 2; 2] c = Some c' /\
       threads c' 2 = Returned None /\
       threads c' updater = Returned None /\
       trace (pool c') = trace (pool c) ++ [ev_notify_all; ev_thread_join] /\
       threads c' 1 = L86w) /\
    (forall s c', run_actions Object s c = Some c' ->
                  in_wait_loop (threads c' 1) = true /\
                  has_left (threads c' 1) = false).
Proof.
  eexists. split; [vm_compute; reflexivity|].
  match goal with
  | |- step Object 1 ?c = None /\ _ =>
      refine (@C9_teardown_does_not_release_the_waiter c 2 1 _ _ _ eq_refl
                eq_refl eq_refl eq_refl eq_refl eq_refl eq_refl _)
  end.
  - discriminate.
  - discriminate.
  - discriminate.
  - intros [|[|[|[|t']]]] H; try reflexivity. now elim H.
Defined.

(** ** Teardown, end to end (C5) *)




(** ** More requests than objects on a growable pool *)

Lemma growable_requests_from (k : nat) (w : ObjectPool) (a m : nat) :
  expandable w = true ->
  objects w = seq a m -> next_object w = a + m ->
  responses Object (repeat Request k) w = map Granted (seq a k) /\
  activeObjects (run Object (repeat Request k) w) =
    activeObjects w ++ seq a k /\
  objects (run Object (repeat Request k) w) = seq (a + k) (m - k) /\
  next_object (run Object (repeat Request k) w) = a + Nat.max m k /\
  creations (run Object (repeat Request k) w) = creations w + (k - m).
Proof.
  revert w a m. induction k as [|k IH]; intros w a m E Ho Hn.
  - simpl. rewrite app_nil_r, Nat.add_0_r, Nat.sub_0_r, Nat.max_0_r.
    repeat split; auto.
  - cbn [repeat responses run]. unfold run_call.
    destruct m as [|m]; simpl in Ho.
    + rewrite requestObject_empty_grow by assumption. cbn.
      match goal with
      | |- context [run Object _ ?w1] =>
          destruct (IH w1 (S a) 0) as (H1 & H2 & H3 & H4 & H5)
      end; try reflexivity.
      { simpl. rewrite Hn. lia. }
      rewrite H1, H2, H3, H4, H5, Hn. simpl.
      rewrite <- app_assoc. simpl.
      replace (a + 0) with a by lia.
      repeat split; try (f_equal; lia).
      unfold creations. simpl. rewrite !filter_app, !length_app. simpl. lia.
    + rewrite (requestObject_nonempty Object w Ho). cbn.
      match goal with
      | |- context [run Object _ ?w1] =>
          destruct (IH w1 (S a) m) as (H1 & H2 & H3 & H4 & H5)
      end; try reflexivity; try assumption.
      { simpl. rewrite Hn. lia. }
      rewrite H1, H2, H3, H4, H5. simpl.
      rewrite <- app_assoc. simpl.
      repeat split; try (f_equal; lia).
      unfold creations. simpl. rewrite !filter_app, !length_app. simpl. lia.
Qed.

(** On a growable pool constructed with [N] objects, [k] requests in a row
    are all granted, to [k] different objects, and objects are allocated only
    for the requests beyond the first [N]. *)
Lemma growable_pool_serves_every_request (N : Z) (k : nat) :
  let w0 := ObjectPool_2 N true in
  responses Object (repeat Request k) w0 = map Granted (seq 0 k) /\
  activeObjects (run Object (repeat Request k) w0) = seq 0 k /\
  creations (run Object (repeat Request k) w0) =
    Z.to_nat N + (k - Z.to_nat N).
Proof.
  destruct (@growable_requests_from k (ObjectPool_2 N true) 0 (Z.to_nat N))
    as (H1 & H2 & _ & _ & H5); try (rewrite ObjectPool_2_spec; reflexivity).
  cbv zeta. rewrite H1, H2, H5. rewrite ObjectPool_2_spec. simpl.
  repeat split. f_equal.
  unfold creations. simpl. rewrite filter_app, length_app. simpl.
  assert (F : forall l, filter (fun e => match e with ev_new _ => true
                                         | _ => false end) (map ev_new l)
                        = map ev_new l).
  { induction l as [|x l IHl]; simpl; congruence. }
  rewrite F, length_map, length_seq. lia.
Qed.

(** * Further properties of the code *)

(** ** Sequences of calls, piecewise *)

Lemma run_app (R : Resource) (cs1 cs2 : list call) (w : ObjectPool) :
  run R (cs1 ++ cs2) w = run R cs2 (run R cs1 w).
Proof.
  revert w. induction cs1 as [|c cs1 IH]; intro w; simpl; auto.
Qed.

Lemma responses_app (R : Resource) (cs1 cs2 : list call) (w : ObjectPool) :
  responses R (cs1 ++ cs2) w =
  responses R cs1 w ++ responses R cs2 (run R cs1 w).
Proof.
  revert w. induction cs1 as [|c cs1 IH]; intro w; simpl; auto.
  now rewrite IH.
Qed.

(** [k] requests on a queue that holds at least [k] objects. *)
Lemma requests_within_queue (R : Resource) (k : nat) (w : ObjectPool) :
  (forall p, activate_raises R p = false) ->
  k <= length (objects w) ->
  responses R (repeat Request k) w = map Granted (firstn k (objects w)) /\
  run R (repeat Request k) w =
  mkPool (expandable w) (skipn k (objects w))
         (activeObjects w ++ firstn k (objects w))
         (updateThread w) (stopUpdateFlag w) (next_object w)
         (trace w ++ map ev_activate (firstn k (objects w))).
Proof.
  intro HR. revert w. induction k as [|k IH]; intros w Hk.
  - simpl. rewrite !app_nil_r. split; [reflexivity|]. now destruct w.
  - destruct (objects w) as [|obj rest] eqn:Ho; [simpl in Hk; lia|].
    cbn [repeat responses run]. unfold run_call.
    rewrite (requestObject_nonempty R w Ho). cbv zeta. rewrite HR.
    cbn [fst snd].
    match goal with
    | |- context [run R _ ?w1] => destruct (IH w1) as [H1 H2]
    end.
    { simpl in *. lia. }
    rewrite H1, H2. simpl. rewrite <- !app_assoc. simpl. auto.
Qed.

(** ** Grants follow the queue (X1) *)

(** X1: [requestObject] hands out the objects of the queue in queue order.
    On a pool of either policy whose queue holds at least [k] objects, [k]
    requests in a row return the first [k] objects of the queue, in that
    order; each is activated once and appended to [activeObjects]; the rest
    of the queue is untouched and nothing is allocated. *)
Theorem X1_requests_follow_queue_order (k : nat) (w : ObjectPool) :
  k <= length (objects w) ->
  responses Object (repeat Request k) w = map Granted (firstn k (objects w)) /\
  objects (run Object (repeat Request k) w) = skipn k (objects w) /\
  activeObjects (run Object (repeat Request k) w) =
    activeObjects w ++ firstn k (objects w) /\
  trace (run Object (repeat Request k) w) =
    trace w ++ map ev_activate (firstn k (objects w)) /\
  next_object (run Object (repeat Request k) w) = next_object w.
Proof.
  intro Hk.
  destruct (@requests_within_queue Object k w (fun _ => eq_refl) Hk)
    as [H1 H2].
  rewrite H1, H2. simpl. auto.
Qed.

Lemma X1_requests_follow_queue_order_witness :
  let w := run Object [Request; Release 0] (ObjectPool_2 3 false) in
  2 <= length (objects w) /\
  responses Object (repeat Request 2) w = map Granted (firstn 2 (objects w)) /\
  objects (run Object (repeat Request 2) w) = skipn 2 (objects w) /\
  activeObjects (run Object (repeat Request 2) w) =
    activeObjects w ++ firstn 2 (objects w) /\
  trace (run Object (repeat Request 2) w) =
    trace w ++ map ev_activate (firstn 2 (objects w)) /\
  next_object (run Object (repeat Request 2) w) = next_object w.
Proof.
  assert (H : 2 <= length (objects (run Object [Request; Release 0]
                                        (ObjectPool_2 3 false)))).
  { vm_compute. lia. }
  split; [exact H|].
  exact (@X1_requests_follow_queue_order 2
           (run Object [Request; Release 0] (ObjectPool_2 3 false)) H).
Defined.

(** ** Request and release, back to back (X2) *)

(** X2: a request followed by the release of the granted object is a round
    trip on membership.  When the front [obj] of the queue is not already
    active, [requestObject] returns [obj] and [releaseObject(obj)] then
    leaves [activeObjects] as it was and the queue rotated by one: [obj] has
    moved from the front to the tail.  [obj] was activated once, deactivated
    once, one waiter was notified, and nothing else changed. *)
Theorem X2_request_release_round_trip
        (w : ObjectPool) (obj : ptr) (rest : list ptr) :
  objects w = obj :: rest ->
  ~ In obj (activeObjects w) ->
  responses Object [Request; Release obj] w = [Granted obj; Done] /\
  run Object [Request; Release obj] w =
  mkPool (expandable w) (rest ++ [obj]) (activeObjects w)
         (updateThread w) (stopUpdateFlag w) (next_object w)
         (trace w ++ [ev_activate obj; ev_deactivate obj; ev_notify_one]).
Proof.
  intros Ho Hna. cbn [responses run]. unfold run_call.
  rewrite (requestObject_nonempty Object w Ho). cbv zeta.
  cbn [activate_raises Object fst snd].
  rewrite releaseObject_spec. cbn [deactivate_raises Object fst snd].
  simpl. rewrite (remove_app Nat.eq_dec), (notin_remove Nat.eq_dec _ _ Hna).
  simpl. destruct (Nat.eq_dec obj obj) as [_|K]; [|congruence].
  rewrite app_nil_r, <- app_assoc. auto.
Qed.

Lemma X2_request_release_round_trip_witness :
  let w := run Object [Request] (ObjectPool_2 3 true) in
  objects w = 1 :: [2] /\ ~ In 1 (activeObjects w) /\
  responses Object [Request; Release 1] w = [Granted 1; Done] /\
  run Object [Request; Release 1] w =
  mkPool (expandable w) ([2] ++ [1]) (activeObjects w)
         (updateThread w) (stopUpdateFlag w) (next_object w)
         (trace w ++ [ev_activate 1; ev_deactivate 1; ev_notify_one]).
Proof.
  assert (H1 : objects (run Object [Request] (ObjectPool_2 3 true))
               = 1 :: [2]) by reflexivity.
  assert (H2 : ~ In 1 (activeObjects
                         (run Object [Request] (ObjectPool_2 3 true)))).
  { vm_compute. intros [K|[]]. discriminate K. }
  split; [exact H1|]. split; [exact H2|].
  exact (@X2_request_release_round_trip
           (run Object [Request] (ObjectPool_2 3 true)) 1 [2] H1 H2).
Defined.

(** ** An exhausted non-growable pool (X3) *)

(** X3: on a non-growable pool constructed with [N] objects, the first [N]
    requests are granted objects [0 .. N-1] in order.  The next request runs
    into [wait] and is suspended there: four statements later it is in the
    wait set with the pool unchanged and the mutex free, and it cannot move.
    When another thread then releases any granted object [r], the suspended
    request is woken, takes exactly [r] and returns it; the queue is empty
    again. *)
Theorem X3_exhausted_pool_blocks_until_release
        (N : Z) (r : ptr) (c : Config) (t u : tid) :
  r < Z.to_nat N -> t <> u ->
  pool c = run Object (repeat Request (Z.to_nat N)) (ObjectPool_2 N false) ->
  threads c t = L82 -> threads c u = L103 FromClient r ->
  mutex c = None -> waiting c = [] ->
  responses Object (repeat Request (Z.to_nat N)) (ObjectPool_2 N false) =
    map Granted (seq 0 (Z.to_nat N)) /\
  requestObject Object (pool c) = Blocks (pool c) /\
  exists c1,
    exec Object (repeat t 4) c = Some c1 /\
    pool c1 = pool c /\ mutex c1 = None /\ waiting c1 = [t] /\
    step Object t c1 = None /\
    exists c2,
      exec Object (repeat u 6 ++ repeat t 7) c1 = Some c2 /\
      threads c2 t = Returned (Some r) /\
      threads c2 u = Returned None /\
      mutex c2 = None /\ waiting c2 = [] /\
      objects (pool c2) = [] /\
      activeObjects (pool c2) =
        remove Nat.eq_dec r (seq 0 (Z.to_nat N)) ++ [r].
Proof.
  intros Hr Htu Hp Ht Hu Hm Hw.
  assert (Etu : Nat.eqb t u = false) by (apply Nat.eqb_neq; auto).
  assert (Eut : Nat.eqb u t = false) by (apply Nat.eqb_neq; auto).
  set (n := Z.to_nat N) in *. set (w0 := ObjectPool_2 N false) in *.
  destruct (@requests_within_queue Object n w0 (fun _ => eq_refl)) as [H1 H2].
  { unfold w0. rewrite ObjectPool_2_spec. simpl. now rewrite length_seq. }
  assert (Hq : objects w0 = seq 0 n)
    by (unfold w0; rewrite ObjectPool_2_spec; reflexivity).
  assert (He : expandable w0 = false)
    by (unfold w0; rewrite ObjectPool_2_spec; reflexivity).
  assert (Ha : activeObjects w0 = [])
    by (unfold w0; rewrite ObjectPool_2_spec; reflexivity).
  rewrite Hq, He, Ha in H2. rewrite Hq in H1.
  rewrite firstn_all2 in H1, H2 by (rewrite length_seq; lia).
  rewrite skipn_all2 in H2 by (rewrite length_seq; lia).
  rewrite H2 in Hp.
  assert (Ho : objects (pool c) = []) by (now rewrite Hp).
  assert (Hx : expandable (pool c) = false) by (now rewrite Hp).
  assert (Hact : activeObjects (pool c) = seq 0 n) by (now rewrite Hp).
  split; [exact H1|].
  split; [now apply requestObject_empty_fixed|].
  simpl.
  mstep. rewrite Ht, Hx. simpl.                        (* t: 82 *)
  mstep. rewrite Hm. cfg_simpl.                        (* t: 83 *)
  mstep. rewrite Ho. simpl.                            (* t: 84 *)
  mstep. rewrite Hw. simpl.                            (* t: 86 *)
  eexists. split; [reflexivity|]. cfg_simpl.
  split; [reflexivity|]. split; [reflexivity|]. split; [reflexivity|].
  split.
  { unfold step. cfg_simpl. unfold is_waiting. cfg_simpl. simpl.
    now rewrite Nat.eqb_refl. }
  mstep. rewrite Eut, Hu. cfg_simpl.                   (* u: 103 *)
  mstep. simpl.                                        (* u: 104 *)
  mstep.                                               (* u: 105 *)
  mstep.                                               (* u: 106 *)
  mstep.                                               (* u: 107 *)
  mstep.                                               (* u: 108 *)
  mstep. rewrite Etu. cfg_simpl.
  unfold is_waiting. cfg_simpl. simpl.                 (* t: woken, re-lock *)
  mstep. rewrite Ho. simpl.                            (* t: 84 *)
  mstep.                                               (* t: 88 *)
  mstep. rewrite Ho. simpl.                            (* t: 94 *)
  mstep. rewrite Ho. simpl.                            (* t: 95 *)
  mstep.                                               (* t: 96 *)
  mstep.                                               (* t: 97 *)
  eexists. split; [reflexivity|]. cfg_simpl. rewrite ?Eut. pool_simpl.
  rewrite Ho, Hact. simpl. repeat split.
Qed.

Lemma X3_exhausted_pool_blocks_until_release_witness :
  let c := boot (run Object (repeat Request (Z.to_nat 3)) (ObjectPool_2 3 false))
                [L82; L103 FromClient 1] in
  responses Object (repeat Request (Z.to_nat 3)) (ObjectPool_2 3 false) =
    map Granted (seq 0 (Z.to_nat 3)) /\
  requestObject Object (pool c) = Blocks (pool c) /\
  exists c1,
    exec Object (repeat 1 4) c = Some c1 /\
    pool c1 = pool c /\ mutex c1 = None /\ waiting c1 = [1] /\
    step Object 1 c1 = None /\
    exists c2,
      exec Object (repeat 2 6 ++ repeat 1 7) c1 = Some c2 /\
      threads c2 1 = Returned (Some 1) /\
      threads c2 2 = Returned None /\
      mutex c2 = None /\ waiting c2 = [] /\
      objects (pool c2) = [] /\
      activeObjects (pool c2) =
        remove Nat.eq_dec 1 (seq 0 (Z.to_nat 3)) ++ [1].
Proof.
  intro c.
  assert (Hr : 1 < Z.to_nat 3) by (vm_compute; lia).
  assert (Htu : 1 <> 2) by discriminate.
  assert (Hp : pool c = run Object (repeat Request (Z.to_nat 3))
                            (ObjectPool_2 3 false)) by reflexivity.
  assert (Ht : threads c 1 = L82) by reflexivity.
  assert (Hu : threads c 2 = L103 FromClient 1) by reflexivity.
  assert (Hm : mutex c = None) by reflexivity.
  assert (Hw : waiting c = []) by reflexivity.
  exact (@X3_exhausted_pool_blocks_until_release 3 1 c 1 2
           Hr Htu Hp Ht Hu Hm Hw).
Defined.

(** ** What a call never does (X4) *)

Lemma run_call_response (R : Resource) (c : call) (w : ObjectPool) :
  fst (run_call R c w) <> Undef /\
  (fst (run_call R c w) = Waits -> c = Request /\ expandable w = false /\
                                   objects w = [] /\
                                   snd (run_call R c w) = w) /\
  (fst (run_call R c w) = Failed ->
   exists p, activate_raises R p = true \/ deactivate_raises R p = true).
Proof.
  destruct c as [|r|]; unfold run_call.
  - destruct (request_cases R w) as [[H E]|[[H E]|(obj & rest & H)]].
    + rewrite requestObject_empty_fixed by assumption. simpl.
      repeat split; auto; discriminate.
    + rewrite requestObject_empty_grow by assumption. cbv zeta.
      destruct (activate_raises R (next_object w)) eqn:HA; simpl;
        repeat split; try discriminate; eauto.
    + rewrite (requestObject_nonempty R w H). cbv zeta.
      destruct (activate_raises R obj) eqn:HA; simpl;
        repeat split; try discriminate; eauto.
  - rewrite releaseObject_spec.
    destruct (deactivate_raises R r) eqn:HD; simpl;
      repeat split; try discriminate; eauto.
  - unfold updateLoop_pass. destruct (stopUpdateFlag w); simpl;
      repeat split; discriminate.
Qed.

(** X4: with every call run to its end before the next starts, no call of
    any sequence, on any pool state and for any managed class, reaches
    [front()] or [pop()] on an empty queue.  A call is suspended only in
    [requestObject] on a non-growable pool whose queue is empty, so on a
    growable pool no call of any sequence is ever suspended.  With the
    sample [Object] no call raises. *)
Theorem X4_calls_never_touch_an_empty_queue
        (R : Resource) (cs : list call) (w : ObjectPool) :
  ~ In Undef (responses R cs w) /\
  (In Waits (responses R cs w) -> expandable w = false) /\
  ~ In Failed (responses Object cs w).
Proof.
  split; [|split].
  - revert w. induction cs as [|c cs IH]; intros w H; simpl in H;
      [contradiction|]. destruct H as [H|H].
    + now apply (proj1 (run_call_response R c w)).
    + now apply (IH _ H).
  - revert w. induction cs as [|c cs IH]; intros w H; simpl in H;
      [contradiction|].
    destruct H as [H|H].
    + now apply (run_call_response R c w) in H.
    + apply IH in H. now rewrite (proj1 (policy_run_call R c w)) in H.
  - revert w. induction cs as [|c cs IH]; intros w H; simpl in H;
      [contradiction|]. destruct H as [H|H].
    + apply (run_call_response Object c w) in H.
      destruct H as (p & [K|K]); discriminate K.
    + now apply (IH _ H).
Qed.

(** ** A pool constructed with no objects (X5) *)

(** X5: a constructor called with zero or a negative count builds an empty
    pool.  If it is non-growable every request is suspended and the state
    never changes, however many requests are made; if it is growable the
    [k] first requests allocate and return objects [0 .. k-1]. *)
Theorem X5_pool_constructed_empty (N : Z) (k : nat) :
  (N <= 0)%Z ->
  objects (ObjectPool_2 N false) = [] /\
  responses Object (repeat Request k) (ObjectPool_2 N false)
    = repeat Waits k /\
  run Object (repeat Request k) (ObjectPool_2 N false)
    = ObjectPool_2 N false /\
  responses Object (repeat Request k) (ObjectPool_2 N true)
    = map Granted (seq 0 k) /\
  creations (run Object (repeat Request k) (ObjectPool_2 N true)) = k.
Proof.
  intro HN.
  assert (Hz : Z.to_nat N = 0) by lia.
  destruct (growable_pool_serves_every_request N k) as (G1 & _ & G3).
  rewrite Hz in G3. rewrite G1, G3.
  rewrite !ObjectPool_2_spec, Hz. simpl.
  repeat split; try lia.
  - clear. induction k as [|k IH]; [reflexivity|].
    cbn [repeat responses]. unfold run_call.
    rewrite requestObject_empty_fixed by reflexivity. cbn [fst snd].
    now rewrite IH.
  - clear. induction k as [|k IH]; [reflexivity|].
    cbn [repeat run]. unfold run_call.
    rewrite requestObject_empty_fixed by reflexivity. cbn [fst snd].
    exact IH.
Qed.

Lemma X5_pool_constructed_empty_witness :
  (-2 <= 0)%Z /\
  objects (ObjectPool_2 (-2) false) = [] /\
  responses Object (repeat Request 3) (ObjectPool_2 (-2) false)
    = repeat Waits 3 /\
  run Object (repeat Request 3) (ObjectPool_2 (-2) false)
    = ObjectPool_2 (-2) false /\
  responses Object (repeat Request 3) (ObjectPool_2 (-2) true)
    = map Granted (seq 0 3) /\
  creations (run Object (repeat Request 3) (ObjectPool_2 (-2) true)) = 3.
Proof.
  assert (H : (-2 <= 0)%Z) by lia.
  split; [exact H|].
  exact (@X5_pool_constructed_empty (-2) 3 H).
Defined.

(** ** A growable pool beyond its initial size (X6) *)

(** X6: on a growable pool constructed with [N] objects, [k] requests in a
    row, for any [k], are all granted, to the [k] different objects
    [0 .. k-1]; the first [N] come from the queue and one object is allocated
    for each request beyond them, so [max N k] objects exist afterwards and
    the queue holds the [N - k] that were not handed out. *)
Theorem X6_growable_pool_grows_on_demand (N : Z) (k : nat) :
  let n := Z.to_nat N in
  let w := run Object (repeat Request k) (ObjectPool_2 N true) in
  responses Object (repeat Request k) (ObjectPool_2 N true)
    = map Granted (seq 0 k) /\
  activeObjects w = seq 0 k /\
  objects w = seq k (n - k) /\
  next_object w = Nat.max n k /\
  creations w = Nat.max n k.
Proof.
  destruct (@growable_requests_from k (ObjectPool_2 N true) 0 (Z.to_nat N))
    as (H1 & H2 & H3 & H4 & H5); try (rewrite ObjectPool_2_spec; reflexivity).
  cbv zeta. rewrite H1, H2, H3, H4, H5.
  destruct (growable_pool_serves_every_request N 0) as (_ & _ & G).
  simpl in G. rewrite G. rewrite ObjectPool_2_spec. simpl.
  repeat split; lia.
Qed.

(** ** Allocation follows the policy (X7) *)

(** What one call allocates, for any state and any managed class. *)
Lemma allocation_run_call (R : Resource) (c : call) (w : ObjectPool) :
  next_object (snd (run_call R c w)) = next_object w + allocates c w /\
  creations (snd (run_call R c w)) = creations w + allocates c w.
Proof.
  destruct c as [|r|]; unfold run_call, allocates.
  - destruct (request_cases R w) as [[H E]|[[H E]|(obj & rest & H)]].
    + rewrite requestObject_empty_fixed by assumption. rewrite E. simpl.
      split; lia.
    + rewrite requestObject_empty_grow by assumption. cbv zeta.
      rewrite E, H. simpl.
      destruct (activate_raises R (next_object w)); simpl;
        (split; [lia|]);
        unfold creations; simpl; rewrite ?filter_app, ?length_app; simpl; lia.
    + rewrite (requestObject_nonempty R w H). cbv zeta. rewrite H.
      rewrite andb_false_r.
      destruct (activate_raises R obj); simpl; (split; [lia|]);
        unfold creations; simpl; rewrite ?filter_app, ?length_app; simpl; lia.
  - rewrite releaseObject_spec.
    destruct (deactivate_raises R r); simpl; (split; [lia|]);
      unfold creations; simpl; rewrite ?filter_app, ?length_app; simpl; lia.
  - unfold updateLoop_pass.
    assert (Z : filter (fun e => match e with ev_new _ => true | _ => false end)
                       (map ev_update (activeObjects w)) = []).
    { induction (activeObjects w); simpl; auto. }
    destruct (stopUpdateFlag w); simpl; rewrite ?update_each_spec;
      simpl; (split; [lia|]); try lia.
    unfold creations. simpl. rewrite filter_app, length_app, Z. simpl. lia.
Qed.

Lemma allocations_bound (R : Resource) (cs : list call) (w : ObjectPool) :
  allocations R cs w <= length cs /\
  (expandable w = false -> allocations R cs w = 0).
Proof.
  revert w. induction cs as [|c cs IH]; intro w; simpl; [auto|].
  destruct (IH (snd (run_call R c w))) as [I1 I2].
  rewrite (proj1 (policy_run_call R c w)) in I2.
  assert (A : allocates c w <= 1 /\ (expandable w = false -> allocates c w = 0)).
  { unfold allocates. destruct c; try (split; auto; lia).
    destruct (expandable w); simpl; [|split; auto; lia].
    destruct (empty (objects w)); split; auto; try lia; discriminate. }
  destruct A as [A1 A2]. split; [lia|].
  intro E. rewrite A2, I2 by assumption. reflexivity.
Qed.

(** X7: objects are allocated only by the constructor and by
    [requestObject] on a growable pool whose queue is empty.  For any
    managed class, any state and any call: [releaseObject] and a pass of the
    update loop allocate nothing, [requestObject] allocates exactly one
    object when the pool is growable and its queue is empty and nothing
    otherwise, and an allocation takes the next fresh address.  So after a
    constructor and any sequence of calls, also one in which callers release
    objects they do not hold, the policy is the one chosen at construction
    and the number of objects allocated is the number constructed plus one
    for every such request; on a non-growable pool it is the number
    constructed. *)
Theorem X7_allocation_follows_policy
        (R : Resource) (N : Z) (exp : bool) (cs : list call) :
  (forall c w,
     creations (snd (run_call R c w)) = creations w + allocates c w /\
     next_object (snd (run_call R c w)) = next_object w + allocates c w /\
     (allocates c w = 1 <->
      c = Request /\ expandable w = true /\ objects w = [])) /\
  (forall r w, allocates (Release r) w = 0) /\
  (forall w, allocates Pass w = 0) /\
  let w0 := ObjectPool_2 N exp in
  let w := run R cs w0 in
  expandable w = exp /\
  creations w0 = Z.to_nat N /\
  creations w = Z.to_nat N + allocations R cs w0 /\
  next_object w = creations w /\
  allocations R cs w0 <= length cs /\
  (exp = false -> creations w = Z.to_nat N).
Proof.
  split; [|split; [|split]]; try reflexivity.
  - intros c w. destruct (allocation_run_call R c w) as [A1 A2].
    split; [exact A2|]. split; [exact A1|].
    unfold allocates. destruct c as [|r|]; split;
      try discriminate; try (intros (K & _); discriminate K).
    + destruct (expandable w); simpl; [|discriminate].
      destruct (objects w); simpl; [auto|discriminate].
    + intros (_ & E & H). now rewrite E, H.
  - cbv zeta.
    assert (G : forall cs w,
               creations (run R cs w) = creations w + allocations R cs w /\
               next_object (run R cs w) = next_object w + allocations R cs w).
    { clear cs. induction cs as [|c cs IH]; intro w; simpl; [split; lia|].
      destruct (IH (snd (run_call R c w))) as (I1 & I2).
      destruct (allocation_run_call R c w) as (D1 & D2).
      split; lia. }
    destruct (G cs (ObjectPool_2 N exp)) as (G1 & G2).
    destruct (policy_run R cs (ObjectPool_2 N exp)) as [P _].
    destruct (allocations_bound R cs (ObjectPool_2 N exp)) as [B1 B2].
    assert (C0 : creations (ObjectPool_2 N exp) = Z.to_nat N).
    { rewrite ObjectPool_2_spec. unfold creations. simpl.
      rewrite filter_app, length_app. simpl.
      assert (F : forall l, filter (fun e => match e with ev_new _ => true
                                             | _ => false end) (map ev_new l)
                            = map ev_new l).
      { induction l as [|x l IHl]; simpl; congruence. }
      rewrite F, length_map, length_seq. lia. }
    assert (N0 : next_object (ObjectPool_2 N exp) = Z.to_nat N)
      by (rewrite ObjectPool_2_spec; reflexivity).
    assert (E0 : expandable (ObjectPool_2 N exp) = exp)
      by (rewrite ObjectPool_2_spec; reflexivity).
    rewrite E0 in *.
    split; [congruence|]. split; [exact C0|]. split; [lia|].
    split; [lia|]. split; [exact B1|].
    intro E. rewrite B2 in G1 by assumption. lia.
Qed.

(** ** The update loop left to itself (X8) *)

Lemma passes_spec (R : Resource) (k : nat) (w : ObjectPool) :
  stopUpdateFlag w = false ->
  let w' := run R (repeat Pass k) w in
  expandable w' = expandable w /\ objects w' = objects w /\
  activeObjects w' = activeObjects w /\ updateThread w' = updateThread w /\
  stopUpdateFlag w' = false /\ next_object w' = next_object w /\
  forall e,
    count_occ event_eq_dec (trace w') e =
    count_occ event_eq_dec (trace w) e +
    k * match e with
        | ev_update p => count_occ Nat.eq_dec (activeObjects w) p
        | _ => 0
        end.
Proof.
  cbv zeta. revert w. induction k as [|k IH]; intros w Hf.
  - simpl. repeat split; auto; lia.
  - cbn [repeat run]. unfold run_call, updateLoop_pass. rewrite Hf.
    cbn [negb fst snd]. rewrite update_each_spec.
    match goal with
    | |- context [run R _ ?w1] =>
        destruct (IH w1 Hf) as (A & B & C & D & E & F & G)
    end.
    rewrite A, B, C, D, E, F. simpl. repeat split; auto.
    intro e. rewrite G. simpl. rewrite count_occ_app, count_updated.
    destruct e; lia.
Qed.

Lemma updateLoop_alone_diverges (fuel : nat) (w : ObjectPool) :
  stopUpdateFlag w = false -> updateLoop fuel w = None.
Proof.
  revert w. induction fuel as [|fuel IH]; intros w Hf; [reflexivity|].
  simpl. unfold updateLoop_pass. rewrite Hf. simpl.
  apply IH. now rewrite update_each_spec.
Qed.

(** X8: the update loop only calls [update].  While the stop flag is clear,
    [k] passes leave both collections, the flags and the allocator as they
    were, call [update] [k] times on every entry of [activeObjects] and call
    nothing else; and the loop never returns by itself: run alone it exhausts
    every bound on the number of passes. *)
Theorem X8_update_loop_left_alone (R : Resource) (k : nat) (w : ObjectPool) :
  stopUpdateFlag w = false ->
  let w' := run R (repeat Pass k) w in
  objects w' = objects w /\
  activeObjects w' = activeObjects w /\
  stopUpdateFlag w' = false /\
  next_object w' = next_object w /\
  (forall p, updates p w' =
             updates p w + k * count_occ Nat.eq_dec (activeObjects w) p) /\
  (forall p, activations p w' = activations p w /\
             deactivations p w' = deactivations p w /\
             deletions p w' = deletions p w) /\
  (forall fuel, updateLoop fuel w = None).
Proof.
  intros Hf. cbv zeta.
  destruct (passes_spec R k w Hf) as (_ & B & C & _ & E & F & G).
  split; [exact B|]. split; [exact C|]. split; [exact E|].
  split; [exact F|]. split; [|split].
  - intro p. unfold updates. now rewrite G.
  - intro p. unfold activations, deactivations, deletions.
    rewrite !G. repeat split; lia.
  - intro fuel. now apply updateLoop_alone_diverges.
Qed.

Lemma X8_update_loop_left_alone_witness :
  let w := run Object [Request; Request] (ObjectPool_2 3 false) in
  stopUpdateFlag w = false /\
  let w' := run Object (repeat Pass 4) w in
  objects w' = objects w /\
  activeObjects w' = activeObjects w /\
  stopUpdateFlag w' = false /\
  next_object w' = next_object w /\
  (forall p, updates p w' =
             updates p w + 4 * count_occ Nat.eq_dec (activeObjects w) p) /\
  (forall p, activations p w' = activations p w /\
             deactivations p w' = deactivations p w /\
             deletions p w' = deletions p w) /\
  (forall fuel, updateLoop fuel w = None).
Proof.
  split; [reflexivity|].
  exact (@X8_update_loop_left_alone Object 4
           (run Object [Request; Request] (ObjectPool_2 3 false)) eq_refl).
Defined.

(** ** Membership and call balance between calls (X9, X10) *)

(** X9: as long as callers release only objects they hold, and with the
    sample [Object], every object allocated so far is in exactly one of the
    two collections, exactly once, after every call of every sequence on a
    pool of either policy: no object is lost, duplicated, or in both. *)
Theorem X9_every_object_in_exactly_one_collection
        (N : Z) (exp : bool) (cs : list call) :
  respects_contract Object cs (ObjectPool_2 N exp) ->
  let w := run Object cs (ObjectPool_2 N exp) in
  (forall p, copies p w = if Nat.ltb p (next_object w) then 1 else 0) /\
  NoDup (objects w ++ activeObjects w) /\
  length (objects w) + length (activeObjects w) = next_object w /\
  (forall p, In p (objects w) -> ~ In p (activeObjects w)).
Proof.
  intros HC. cbv zeta.
  pose proof (well_formed_run Object _ (well_formed_ctor N exp) HC) as WF.
  pose proof (accounted_run cs (accounted_ctor N exp)) as A.
  remember (run Object cs (ObjectPool_2 N exp)) as w eqn:Ew. clear Ew HC.
  assert (C : forall p, copies p w = if Nat.ltb p (next_object w) then 1 else 0).
  { intro p. destruct (WF p) as [W1 W2].
    destruct (Nat.ltb_spec p (next_object w)) as [Hlt|Hge].
    - specialize (A p Hlt). lia.
    - auto. }
  assert (ND : NoDup (objects w ++ activeObjects w)).
  { apply (NoDup_count_occ Nat.eq_dec). intro p. rewrite count_occ_app.
    destruct (WF p) as [W1 _]. exact W1. }
  split; [exact C|]. split; [exact ND|]. split.
  - rewrite <- length_app.
    assert (I1 : incl (objects w ++ activeObjects w) (seq 0 (next_object w))).
    { intros p Hp. apply in_seq. split; [lia|]. simpl.
      apply (count_occ_In Nat.eq_dec) in Hp. rewrite count_occ_app in Hp.
      specialize (C p). unfold copies in C.
      destruct (Nat.ltb_spec p (next_object w)); [assumption|lia]. }
    assert (I2 : incl (seq 0 (next_object w)) (objects w ++ activeObjects w)).
    { intros p Hp. apply in_seq in Hp.
      apply (count_occ_In Nat.eq_dec). rewrite count_occ_app.
      assert (Hlt : p < next_object w) by lia.
      specialize (A p Hlt). unfold copies in A. lia. }
    pose proof (NoDup_incl_length ND I1) as L1.
    pose proof (NoDup_incl_length (seq_NoDup (next_object w) 0) I2) as L2.
    rewrite length_seq in L1, L2. lia.
  - intros p. now apply well_formed_disjoint.
Qed.

Lemma X9_every_object_in_exactly_one_collection_witness :
  respects_contract Object [Request; Request; Release 0; Request]
                    (ObjectPool_2 2 true) /\
  let w := run Object [Request; Request; Release 0; Request]
               (ObjectPool_2 2 true) in
  (forall p, copies p w = if Nat.ltb p (next_object w) then 1 else 0) /\
  NoDup (objects w ++ activeObjects w) /\
  length (objects w) + length (activeObjects w) = next_object w /\
  (forall p, In p (objects w) -> ~ In p (activeObjects w)).
Proof.
  assert (H : respects_contract Object [Request; Request; Release 0; Request]
                                (ObjectPool_2 2 true)).
  { simpl. repeat split; auto. }
  split; [exact H|].
  exact (@X9_every_object_in_exactly_one_collection 2 true _ H).
Defined.

(** X10: under the same conditions, between calls every object has been
    activated exactly once more than deactivated if it is in
    [activeObjects], and exactly as often otherwise; and no object has been
    deleted. *)
Theorem X10_activations_balance_between_calls
        (N : Z) (exp : bool) (cs : list call) :
  respects_contract Object cs (ObjectPool_2 N exp) ->
  let w := run Object cs (ObjectPool_2 N exp) in
  (forall p, In p (activeObjects w) ->
             activations p w = S (deactivations p w)) /\
  (forall p, ~ In p (activeObjects w) ->
             activations p w = deactivations p w) /\
  (forall p, deletions p w = 0).
Proof.
  intros HC. cbv zeta.
  pose proof (well_formed_run Object _ (well_formed_ctor N exp) HC) as WF.
  pose proof (balanced_run cs (well_formed_ctor N exp) (balanced_ctor N exp)
                           HC) as B.
  destruct (frame_run Object cs (ObjectPool_2 N exp)) as (_ & _ & HD).
  pose proof (well_formed_NoDup_active WF) as ND.
  split; [|split].
  - intros p Hp. rewrite B.
    pose proof (proj1 (NoDup_count_occ' Nat.eq_dec _) ND p Hp). lia.
  - intros p Hp. rewrite B.
    apply (count_occ_not_In Nat.eq_dec) in Hp. lia.
  - intro p. rewrite HD, ObjectPool_2_spec. unfold deletions. simpl.
    rewrite count_occ_app. simpl.
    assert (Z : count_occ event_eq_dec (map ev_new (seq 0 (Z.to_nat N)))
                          (ev_delete p) = 0).
    { apply count_occ_not_In. intro HI. apply in_map_iff in HI.
      destruct HI as (q & Hq & _). discriminate. }
    rewrite Z. now destruct (event_eq_dec ev_thread_start (ev_delete p)).
Qed.

Lemma X10_activations_balance_between_calls_witness :
  respects_contract Object [Request; Request; Release 0; Request]
                    (ObjectPool_2 2 true) /\
  let w := run Object [Request; Request; Release 0; Request]
               (ObjectPool_2 2 true) in
  (forall p, In p (activeObjects w) ->
             activations p w = S (deactivations p w)) /\
  (forall p, ~ In p (activeObjects w) ->
             activations p w = deactivations p w) /\
  (forall p, deletions p w = 0).
Proof.
  assert (H : respects_contract Object [Request; Request; Release 0; Request]
                                (ObjectPool_2 2 true)).
  { simpl. repeat split; auto. }
  split; [exact H|].
  exact (@X10_activations_balance_between_calls 2 true _ H).
Defined.

(** ** Teardown of a pool in any state (X11) *)

Lemma present_cons (p obj : ptr) (rest : list ptr) :
  present p (obj :: rest) =
  (if Nat.eq_dec obj p then 1 else 0) +
  present p (remove Nat.eq_dec obj rest).
Proof.
  unfold present.
  destruct (Nat.eq_dec obj p) as [E|E].
  - subst p.
    destruct (in_dec Nat.eq_dec obj (obj :: rest)) as [H|H];
      [|exfalso; apply H; now left].
    destruct (in_dec Nat.eq_dec obj (remove Nat.eq_dec obj rest)) as [H'|H'];
      [|reflexivity].
    exfalso. now apply remove_In in H'.
  - destruct (in_dec Nat.eq_dec p (obj :: rest)) as [H|H];
      destruct (in_dec Nat.eq_dec p (remove Nat.eq_dec obj rest)) as [H'|H'];
      try reflexivity; exfalso.
    + destruct H as [H|H]; [congruence|].
      apply H'. apply in_in_remove; auto.
    + apply in_remove in H'. apply H. right. tauto.
Qed.

Lemma release_active_counts (fuel : nat) (w : ObjectPool) :
  length (activeObjects w) <= fuel ->
  exists w',
    release_active Object fuel w = Some (Returns tt w') /\
    activeObjects w' = [] /\
    stopUpdateFlag w' = stopUpdateFlag w /\
    updateThread w' = updateThread w /\
    (forall p, count_occ Nat.eq_dec (objects w') p =
               count_occ Nat.eq_dec (objects w) p +
               present p (activeObjects w)) /\
    (forall e, e <> ev_notify_one ->
               count_occ event_eq_dec (trace w') e =
               count_occ event_eq_dec (trace w) e +
               match e with
               | ev_deactivate p => present p (activeObjects w)
               | _ => 0
               end).
Proof.
  revert w. induction fuel as [|fuel IH]; intros w L.
  - destruct (activeObjects w) as [|obj rest] eqn:H; [|simpl in L; lia].
    exists w. simpl. rewrite H.
    split; [reflexivity|]. split; [reflexivity|]. split; [reflexivity|].
    split; [reflexivity|]. split.
    + intro p. unfold present. simpl. lia.
    + intros e _. unfold present. simpl. destruct e; lia.
  - destruct (activeObjects w) as [|obj rest] eqn:H.
    + exists w. simpl. rewrite H.
      split; [reflexivity|]. split; [reflexivity|]. split; [reflexivity|].
      split; [reflexivity|]. split.
      * intro p. unfold present. simpl. lia.
      * intros e _. unfold present. simpl. destruct e; lia.
    + cbn [release_active]. rewrite H, releaseObject_spec.
      cbn [deactivate_raises Object].
      match goal with
      | |- context [release_active Object fuel ?w1] =>
          destruct (IH w1) as (w' & Hr & Ha & Hf & Hu & Ho & Ht)
      end.
      { cbn [activeObjects].
        assert (K : In obj (activeObjects w)) by (rewrite H; now left).
        apply (remove_length_lt Nat.eq_dec) in K.
        rewrite H in K at 2. simpl in K, L. lia. }
      exists w'. split; [exact Hr|]. simpl in *.
      rewrite H in *. simpl in Ho, Ht.
      destruct (Nat.eq_dec obj obj) as [_|K]; [|congruence].
      split; [exact Ha|]. split; [exact Hf|]. split; [exact Hu|]. split.
      * intro p. rewrite Ho, count_occ_snoc, present_cons. lia.
      * intros e He. specialize (Ht e He).
        rewrite count_occ_app in Ht. simpl in Ht.
        destruct e; try (rewrite present_cons); count_cases; try lia;
          congruence.
Qed.

(** X11: the destructor run on a pool in any state in which it deletes no
    pointer twice: no object has two entries in the queue or one in each
    collection, and none was deleted before.  Repeated entries in
    [activeObjects], which misuse can leave behind, are allowed.  The
    destructor reaches its end and empties both collections; [deactivate] is
    called once on every object that is in [activeObjects], however often it
    is listed there, because [remove] erases all its entries; [delete] is
    applied exactly once to every object of either collection; nothing is
    activated or updated.  On the machine the destructor thread gets there
    with only itself and the update thread moving, every other thread being
    outside the pool. *)
Theorem X11_teardown_of_any_state (w : ObjectPool) :
  updateThread w = true ->
  deleted_once w ->
  exists w',
    ObjectPool_dtor Object w = Some (Returns tt w') /\
    objects w' = [] /\ activeObjects w' = [] /\
    stopUpdateFlag w' = true /\ updateThread w' = false /\
    (forall p, deactivations p w' =
               deactivations p w + present p (activeObjects w)) /\
    (forall p, In p (objects w ++ activeObjects w) -> deletions p w' = 1) /\
    (forall p, ~ In p (objects w ++ activeObjects w) ->
               deletions p w' = deletions p w) /\
    (forall p, activations p w' = activations p w /\
               updates p w' = updates p w) /\
    (forall c d,
       pool c = w -> d <> updater ->
       threads c d = L65 -> threads c updater = L37 -> mutex c = None ->
       (forall t, t <> d -> t <> updater -> outside (threads c t) = true) ->
       exists n c',
         exec Object ([d; d; updater; d] ++ repeat d n) c = Some c' /\
         pool c' = w' /\ threads c' d = Returned None).
Proof.
  intros HU HD.
  assert (M : forall w',
             ObjectPool_dtor Object w = Some (Returns tt w') ->
             forall c d,
               pool c = w -> d <> updater ->
               threads c d = L65 -> threads c updater = L37 ->
               mutex c = None ->
               (forall t, t <> d -> t <> updater ->
                          outside (threads c t) = true) ->
               exists n c',
                 exec Object ([d; d; updater; d] ++ repeat d n) c = Some c' /\
                 pool c' = w' /\ threads c' d = Returned None).
  { intros w' E c d Hp Hdu Hd Hu Hm _. subst w.
    destruct (@ObjectPool_dtor_machine c d Hdu Hd Hu Hm HU)
      as (w1 & n & c' & Hdt & Hex & Hp' & _ & _ & Hd' & _).
    rewrite E in Hdt. injection Hdt as <-. eauto. }
  revert M. unfold ObjectPool_dtor, ObjectPool_dtor_fuel, join.
  cbn [updateThread emit set_stopUpdateFlag]. rewrite HU.
  unfold updateLoop_pass. cbn [stopUpdateFlag emit set_stopUpdateFlag negb].
  match goal with
  | |- context [release_active Object ?f ?w3] =>
      destruct (@release_active_counts f w3 (Nat.le_refl _))
        as (w4 & Hr & Ha & Hf & Hu & Ho & Ht)
  end.
  rewrite Hr. intro M. eexists. split; [reflexivity|].
  specialize (M _ eq_refl). revert M.
  rewrite delete_objects_spec by reflexivity. intro M.
  cbn [objects activeObjects stopUpdateFlag updateThread trace]. simpl in *.
  split; [reflexivity|]. split; [exact Ha|]. split; [exact Hf|].
  split; [exact Hu|].
  assert (D : forall p,
             count_occ event_eq_dec (trace w4 ++ map ev_delete (objects w4))
                       (ev_delete p) =
             deletions p w + count_occ Nat.eq_dec (objects w) p +
             present p (activeObjects w)).
  { intro p. unfold deletions.
    rewrite ?count_occ_app, ?count_deleted, ?Ho, ?Ht by discriminate.
    rewrite ?count_occ_app. simpl. count_cases; lia. }
  unfold deactivations, activations, updates. simpl.
  split; [|split; [|split; [|split; [|exact M]]]]; intro p.
  - rewrite ?count_occ_app, ?count_deleted, ?Ho, ?Ht by discriminate.
    rewrite ?count_occ_app. simpl. count_cases; lia.
  - intro Hin. unfold deletions at 1. cbn [trace]. rewrite D.
    specialize (HD p). apply in_app_or in Hin.
    destruct Hin as [Hin|Hin].
    + apply (count_occ_In Nat.eq_dec) in Hin. lia.
    + unfold present in *.
      destruct (in_dec Nat.eq_dec p (activeObjects w)); [lia|contradiction].
  - intro Hin. unfold deletions at 1. cbn [trace]. rewrite D.
    assert (H1 : ~ In p (objects w)) by (intro K; apply Hin, in_or_app; auto).
    assert (H2 : ~ In p (activeObjects w))
      by (intro K; apply Hin, in_or_app; auto).
    apply (count_occ_not_In Nat.eq_dec) in H1.
    unfold present.
    destruct (in_dec Nat.eq_dec p (activeObjects w)); [contradiction|lia].
  - rewrite ?count_occ_app, ?count_deleted, ?Ho, ?Ht by discriminate.
    rewrite ?count_occ_app. simpl. count_cases; lia.
Qed.

Lemma X11_teardown_of_any_state_witness :
  let w := run Object [Request; Release 0; Release 0; Request; Request]
               (ObjectPool_2 1 false) in
  updateThread w = true /\
  deleted_once w /\
  exists w',
    ObjectPool_dtor Object w = Some (Returns tt w') /\
    objects w' = [] /\ activeObjects w' = [] /\
    stopUpdateFlag w' = true /\ updateThread w' = false /\
    (forall p, deactivations p w' =
               deactivations p w + present p (activeObjects w)) /\
    (forall p, In p (objects w ++ activeObjects w) -> deletions p w' = 1) /\
    (forall p, ~ In p (objects w ++ activeObjects w) ->
               deletions p w' = deletions p w) /\
    (forall p, activations p w' = activations p w /\
               updates p w' = updates p w) /\
    (forall c d,
       pool c = w -> d <> updater ->
       threads c d = L65 -> threads c updater = L37 -> mutex c = None ->
       (forall t, t <> d -> t <> updater -> outside (threads c t) = true) ->
       exists n c',
         exec Object ([d; d; updater; d] ++ repeat d n) c = Some c' /\
         pool c' = w' /\ threads c' d = Returned None).
Proof.
  assert (HD : deleted_once
                 (run Object [Request; Release 0; Release 0; Request; Request]
                      (ObjectPool_2 1 false))).
  { intro p. vm_compute. destruct p as [|p]; [lia|].
    destruct (Nat.eq_dec 0 (S p)) as [K|_]; [discriminate K|].
    destruct (Nat.eq_dec 0 (S p)) as [K|_]; [discriminate K|]. simpl. lia. }
  split; [reflexivity|]. split; [exact HD|].
  exact (@X11_teardown_of_any_state
           (run Object [Request; Release 0; Release 0; Request; Request]
                (ObjectPool_2 1 false)) eq_refl HD).
Defined.

(** ** Mutual exclusion (X12) *)

(** X12: the locked regions of the code (the body of [updateLoop], the wait
    loop of [requestObject] and the whole of [releaseObject]) exclude each
    other.  In every configuration reached from construction, under any
    schedule with any spurious wake-ups, at most one thread is inside a
    locked region, and while one is, every other thread that asks for the
    mutex (at lines 38, 83, 103, or re-locking inside [wait]) cannot
    move. *)
Theorem X12_locked_regions_exclude_each_other
        (R : Resource) (w : ObjectPool) (entry : list pc) (s : list action)
        (c : Config) (t1 t2 : tid) :
  Forall (fun p => under_lock p = false) entry ->
  run_actions R s (boot w entry) = Some c ->
  under_lock (threads c t1) = true ->
  (under_lock (threads c t2) = true -> t2 = t1) /\
  (wants_mutex (threads c t2) = true -> step R t2 c = None).
Proof.
  intros F H U1.
  pose proof (@locked_regions_own_the_mutex R w entry s c t1 F H U1) as M1.
  split.
  - intro U2.
    pose proof (@locked_regions_own_the_mutex R w entry s c t2 F H U2) as M2.
    congruence.
  - intro W. unfold step, lock_then.
    destruct (threads c t2); try discriminate; rewrite M1; auto.
    now destruct (is_waiting t2 c).
Qed.

Lemma X12_locked_regions_exclude_each_other_witness :
  exists c,
    Forall (fun p => under_lock p = false) [L103 FromClient 0] /\
    run_actions Object [Run 0; Run 0]
      (boot (run Object [Request] (ObjectPool_2 1 false))
            [L103 FromClient 0]) = Some c /\
    under_lock (threads c 0) = true /\
    (under_lock (threads c 1) = true -> 1 = 0) /\
    (wants_mutex (threads c 1) = true -> step Object 1 c = None).
Proof.
  eexists.
  assert (F : Forall (fun p => under_lock p = false) [L103 FromClient 0])
    by (repeat constructor).
  split; [exact F|]. split; [vm_compute; reflexivity|].
  split; [reflexivity|].
  match goal with
  | |- (under_lock (threads ?c 1) = true -> _) /\ _ =>
      refine (@X12_locked_regions_exclude_each_other
                Object (run Object [Request] (ObjectPool_2 1 false))
                [L103 FromClient 0] [Run 0; Run 0] c 0 1 F _ eq_refl)
  end.
  vm_compute. reflexivity.
Defined.

(** ** A release wakes a blocked request (X13) *)

(** X13: a thread suspended in [requestObject] cannot move; when another
    thread releases an object, the [notify_one] of line 107 wakes it, and it
    then finds the released object at the front of the queue, takes it and
    returns it.  Afterwards the queue is empty again, the object is at the
    tail of [activeObjects], the mutex is free and nobody waits. *)
Theorem X13_release_wakes_blocked_request
        (c : Config) (t r : tid) (obj : ptr) :
  t <> r ->
  threads c t = L86w -> waiting c = [t] ->
  threads c r = L103 FromClient obj ->
  mutex c = None -> objects (pool c) = [] ->
  step Object t c = None /\
  exists c',
    exec Object (repeat r 6 ++ repeat t 7) c = Some c' /\
    threads c' r = Returned None /\
    threads c' t = Returned (Some obj) /\
    objects (pool c') = [] /\
    activeObjects (pool c') =
      remove Nat.eq_dec obj (activeObjects (pool c)) ++ [obj] /\
    mutex c' = None /\ waiting c' = [].
Proof.
  intros Htr Ht Hw Hr Hm Ho. split.
  - unfold step, is_waiting. rewrite Ht, Hw. simpl.
    now rewrite Nat.eqb_refl.
  - pose proof (@releaseObject_machine Object c r FromClient obj Hr Hm) as Hrel.
    rewrite releaseObject_spec in Hrel.
    cbn [deactivate_raises Object] in Hrel.
    destruct Hrel as (c1 & H1 & (A1 & B1 & C1 & D1 & F1)).
    rewrite Hw in C1. simpl in C1.
    assert (Ht1 : threads c1 t = L86w) by (rewrite F1; auto).
    assert (Hw1 : is_waiting t c1 = false)
      by (unfold is_waiting; now rewrite C1).
    assert (Ho1 : objects (pool c1) = obj :: [])
      by (rewrite A1; simpl; now rewrite Ho).
    destruct (@woken_waiter_takes_object c1 t obj [] Ht1 Hw1 B1 Ho1)
      as (c2 & H2 & A2 & B2 & C2).
    exists c2. rewrite exec_app, H1.
    split; [exact H2|].
    (* the requester's seven statements touch no other thread *)
    assert (K : mutex c2 = None /\ waiting c2 = [] /\
                threads c2 r = Returned None).
    { clear - H2 Ht1 Hw1 B1 Ho1 C1 D1 Htr.
      assert (Hrt : Nat.eqb r t = false) by (apply Nat.eqb_neq; auto).
      simpl in H2.
      unfold step at 1 in H2. rewrite Ht1, Hw1 in H2.
      unfold lock_then in H2. rewrite B1 in H2. cfg_simpl.
      unfold step at 1 in H2. cfg_simpl. pool_simpl. rewrite Ho1 in H2.
      simpl in H2.
      unfold step at 1 in H2. cfg_simpl.
      unfold step at 1 in H2. cfg_simpl. pool_simpl. rewrite Ho1 in H2.
      unfold step at 1 in H2. cfg_simpl. pool_simpl. rewrite Ho1 in H2.
      unfold step at 1 in H2. cfg_simpl. pool_simpl.
      unfold step at 1 in H2. cfg_simpl. pool_simpl.
      injection H2 as <-. cfg_simpl. rewrite Hrt. auto. }
    destruct K as (K1 & K2 & K3).
    rewrite C2, A1. simpl. repeat split; auto.
Qed.

Lemma X13_release_wakes_blocked_request_witness :
  exists c,
    exec Object [1; 1; 1; 1; 1; 1; 1; 1;  2; 2; 2; 2]
         (boot (ObjectPool_2 1 false) [L82; L82; L103 FromClient 0])
    = Some c /\
    step Object 2 c = None /\
    exists c',
      exec Object (repeat 3 6 ++ repeat 2 7) c = Some c' /\
      threads c' 3 = Returned None /\
      threads c' 2 = Returned (Some 0) /\
      objects (pool c') = [] /\
      activeObjects (pool c') =
        remove Nat.eq_dec 0 (activeObjects (pool c)) ++ [0] /\
      mutex c' = None /\ waiting c' = [].
Proof.
  eexists. split; [vm_compute; reflexivity|].
  match goal with
  | |- step Object 2 ?c = None /\ _ =>
      refine (@X13_release_wakes_blocked_request c 2 3 0 _ eq_refl eq_refl
                eq_refl eq_refl eq_refl)
  end.
  discriminate.
Defined.

(** ** The mutex around [releaseObject] and [requestObject] (X14, X15) *)

(** X14: [releaseObject] cannot start while another thread owns the mutex,
    and it never keeps the mutex: run from a free mutex it reaches its end in
    at most six statements, by return or, when [deactivate] raises, by the
    exception, and in both cases the mutex is free again.  On return the
    shared state is what the call-level [releaseObject] computes and one
    waiter has been notified; on the exception only the [deactivate] call has
    happened and nobody is notified. *)
Theorem X14_release_never_keeps_the_mutex
        (R : Resource) (c : Config) (t : tid) (obj : ptr) :
  threads c t = L103 FromClient obj ->
  (forall o, mutex c = Some o -> step R t c = None) /\
  (mutex c = None ->
   exists n c',
     n <= 6 /\ exec R (repeat t n) c = Some c' /\
     mutex c' = None /\
     (forall t', t' <> t -> threads c' t' = threads c t') /\
     if deactivate_raises R obj
     then threads c' t = Thrown /\
          pool c' = emit (ev_deactivate obj) (pool c) /\
          waiting c' = waiting c
     else threads c' t = Returned None /\
          releaseObject R obj (pool c) = Returns tt (pool c') /\
          waiting c' = tl (waiting c)).
Proof.
  intro Ht. split.
  - intros o Hm. unfold step, lock_then. now rewrite Ht, Hm.
  - intro Hm.
    pose proof (@releaseObject_machine R c t FromClient obj Ht Hm) as Hrel.
    rewrite releaseObject_spec in *.
    destruct (deactivate_raises R obj).
    + destruct Hrel as (c' & Hex & (A & B & C & D & F)).
      exists 2, c'. repeat split; auto.
    + destruct Hrel as (c' & Hex & (A & B & C & D & F)).
      exists 6, c'. repeat split; auto. now rewrite A.
Qed.

Lemma X14_release_never_keeps_the_mutex_witness :
  let c := boot (run Object [Request] (ObjectPool_2 1 false))
                [L103 FromClient 0] in
  threads c 1 = L103 FromClient 0 /\
  (forall o, mutex c = Some o -> step Object 1 c = None) /\
  (mutex c = None ->
   exists n c',
     n <= 6 /\ exec Object (repeat 1 n) c = Some c' /\
     mutex c' = None /\
     (forall t', t' <> 1 -> threads c' t' = threads c t') /\
     if deactivate_raises Object 0
     then threads c' 1 = Thrown /\
          pool c' = emit (ev_deactivate 0) (pool c) /\
          waiting c' = waiting c
     else threads c' 1 = Returned None /\
          releaseObject Object 0 (pool c) = Returns tt (pool c') /\
          waiting c' = tl (waiting c)).
Proof.
  split; [reflexivity|].
  exact (@X14_release_never_keeps_the_mutex Object
           (boot (run Object [Request] (ObjectPool_2 1 false))
                 [L103 FromClient 0]) 1 0 eq_refl).
Defined.

(** X15: [requestObject] run from a free mutex with no other thread stepping
    in between ends in one of three ways, each with the mutex free and every
    other thread where it was: it has returned the object the call-level
    function returns, in the state that function computes; or [activate]
    raised and the exception left the function, in the state that function
    computes; or, on a non-growable pool with an empty queue, it is in the
    wait set, unable to move, with the pool unchanged.  It never calls
    [front()] on an empty queue. *)
Theorem X15_request_alone_agrees_with_the_call
        (R : Resource) (c : Config) (t : tid) :
  threads c t = L82 -> mutex c = None ->
  exists n c',
    exec R (repeat t n) c = Some c' /\
    mutex c' = None /\
    (forall t', t' <> t -> threads c' t' = threads c t') /\
    match requestObject R (pool c) with
    | Returns obj w' =>
        pool c' = w' /\ threads c' t = Returned (Some obj) /\
        waiting c' = waiting c
    | Raises w' =>
        pool c' = w' /\ threads c' t = Thrown /\ waiting c' = waiting c
    | Blocks w' =>
        pool c' = pool c /\ w' = pool c /\ threads c' t = L86w /\
        waiting c' = waiting c ++ [t] /\ step R t c' = None
    | Undefined _ => False
    end.
Proof.
  intros Ht Hm.
  pose proof (@requestObject_machine R c t Ht Hm) as H.
  assert (B : forall w', requestObject R (pool c) = Blocks w' -> w' = pool c).
  { intros w' E.
    destruct (request_cases R (pool c)) as [[H0 E0]|[[H0 E0]|(o & rest & H0)]].
    - rewrite requestObject_empty_fixed in E by assumption. congruence.
    - rewrite requestObject_empty_grow in E by assumption. cbv zeta in E.
      destruct (activate_raises R (next_object (pool c))); discriminate.
    - rewrite (requestObject_nonempty R (pool c) H0) in E. cbv zeta in E.
      destruct (activate_raises R o); discriminate. }
  destruct (requestObject R (pool c)) as [obj w'|w'|w'|w'].
  - destruct H as (n & c' & Hex & (A & B' & C & D & F)).
    exists n, c'. repeat split; auto.
  - destruct H as (n & c' & Hex & (A & B' & C & D & F)).
    exists n, c'. repeat split; auto.
  - destruct H as (n & c' & Hex & (A & B' & C & D & F) & Hs).
    specialize (B w' eq_refl). subst w'.
    exists n, c'. repeat split; auto.
  - contradiction.
Qed.

Lemma X15_request_alone_agrees_with_the_call_witness :
  let c := boot (ObjectPool_2 1 false) [L82] in
  threads c 1 = L82 /\ mutex c = None /\
  exists n c',
    exec Object (repeat 1 n) c = Some c' /\
    mutex c' = None /\
    (forall t', t' <> 1 -> threads c' t' = threads c t') /\
    match requestObject Object (pool c) with
    | Returns obj w' =>
        pool c' = w' /\ threads c' 1 = Returned (Some obj) /\
        waiting c' = waiting c
    | Raises w' =>
        pool c' = w' /\ threads c' 1 = Thrown /\ waiting c' = waiting c
    | Blocks w' =>
        pool c' = pool c /\ w' = pool c /\ threads c' 1 = L86w /\
        waiting c' = waiting c ++ [1] /\ step Object 1 c' = None
    | Undefined _ => False
    end.
Proof.
  split; [reflexivity|]. split; [reflexivity|].
  exact (@X15_request_alone_agrees_with_the_call Object
           (boot (ObjectPool_2 1 false) [L82]) 1 eq_refl eq_refl).
Defined.

(** ** Teardown while a pass is running (X16) *)

(** The two cleanup loops of the destructor, from any state. *)
Lemma drain_and_delete_counts (w3 : ObjectPool) :
  exists w4,
    release_active Object (length (activeObjects w3)) w3
    = Some (Returns tt w4) /\
    objects (delete_objects (objects w4) w4) = [] /\
    activeObjects (delete_objects (objects w4) w4) = [] /\
    (forall p, deactivations p (delete_objects (objects w4) w4) =
               deactivations p w3 + present p (activeObjects w3)) /\
    (forall p, deletions p (delete_objects (objects w4) w4) =
               deletions p w3 + count_occ Nat.eq_dec (objects w3) p +
               present p (activeObjects w3)) /\
    (forall p, activations p (delete_objects (objects w4) w4)
               = activations p w3 /\
               updates p (delete_objects (objects w4) w4) = updates p w3).
Proof.
  destruct (@release_active_counts (length (activeObjects w3)) w3
                                   (Nat.le_refl _))
    as (w4 & Hr & Ha & Hf & Hu & Ho & Ht).
  exists w4. split; [exact Hr|].
  rewrite delete_objects_spec by reflexivity.
  cbn [objects activeObjects]. split; [reflexivity|]. split; [exact Ha|].
  unfold deactivations, deletions, activations, updates. simpl.
  split; [|split]; intro p;
    rewrite ?count_occ_app, ?count_deleted, ?Ho, ?Ht by discriminate;
    rewrite ?count_occ_app; simpl; count_cases; try lia.
Qed.

(** The destructor from its [join], once the update thread has left. *)
Lemma dtor_after_join_machine (c : Config) (d : tid) :
  threads c d = L67 -> has_left (threads c updater) = true ->
  mutex c = None ->
  exists w4 n c',
    release_active Object
      (length (activeObjects (pool c)))
      (set_updateThread false (emit ev_thread_join (pool c)))
    = Some (Returns tt w4) /\
    exec Object (repeat d n) c = Some c' /\
    pool c' = delete_objects (objects w4) w4 /\
    mutex c' = None /\
    threads c' d = Returned None /\
    (forall t, t <> d -> threads c' t = threads c t).
Proof.
  intros Hd Hu Hm.
  set (w3 := set_updateThread false (emit ev_thread_join (pool c))).
  set (c1 := set_pc d L70 (set_pool w3 c)).
  assert (H1 : exec Object (repeat d 1) c = Some c1).
  { simpl. unfold step. now rewrite Hd, Hu. }
  assert (Hd1 : threads c1 d = L70) by (unfold c1; cfg_simpl; reflexivity).
  assert (Hm1 : mutex c1 = None) by exact Hm.
  destruct (@dtor_release_loop_machine
              (length (activeObjects (pool c1))) c1 d Hd1 Hm1 (Nat.le_refl _))
    as (w4 & n1 & c2 & q & Hra & Hex2 & (A2 & B2 & C2 & D2 & F2) & _).
  destruct (@dtor_delete_loop_machine Object (objects w4) c2 d)
    as (c3 & Hex3 & (A3 & B3 & C3 & D3 & F3)); auto.
  { now rewrite A2. }
  exists w4, (1 + (n1 + (3 * length (objects w4) + 1))), c3.
  split; [exact Hra|]. split.
  - rewrite repeat_add, exec_app, H1, repeat_add, exec_app, Hex2. exact Hex3.
  - rewrite A2 in A3. repeat split; auto; try congruence.
    intros t Ht. rewrite F3, F2 by auto. unfold c1. cfg_simpl.
    apply Nat.eqb_neq in Ht. now rewrite Ht.
Qed.

(** X16: the destructor may start while the update thread is in the middle
    of a pass.  Every other thread is outside the pool, and the state is one
    in which the destructor deletes no pointer twice.  The destructor sets
    the flag and notifies, and then its [join] cannot move while the update
    thread is still in [updateLoop].  The update thread finishes the pass it
    is in ([update] on each of the [k] objects it had not yet visited),
    releases the mutex, tests the flag and leaves; only then does the
    destructor go on, deactivate every active object once, delete every
    object once and reach its end.  [update] is called on nothing after the
    [join]. *)
Theorem X16_teardown_waits_for_the_running_pass
        (c : Config) (d : tid) (i k : nat) :
  d <> updater ->
  threads c d = L65 -> threads c updater = L39 i ->
  i + k = length (activeObjects (pool c)) ->
  (forall t, t <> d -> t <> updater -> outside (threads c t) = true) ->
  deleted_once (pool c) ->
  exists c2,
    exec Object [d; d] c = Some c2 /\
    step Object d c2 = None /\
    exists n c',
      exec Object (repeat updater (2 * k + 3) ++ repeat d n) c2 = Some c' /\
      threads c' d = Returned None /\
      threads c' updater = Returned None /\
      mutex c' = None /\
      objects (pool c') = [] /\ activeObjects (pool c') = [] /\
      (forall p, updates p (pool c') =
                 updates p (pool c) +
                 count_occ Nat.eq_dec (skipn i (activeObjects (pool c))) p) /\
      (forall p, deactivations p (pool c') =
                 deactivations p (pool c) +
                 present p (activeObjects (pool c))) /\
      (forall p, deletions p (pool c') =
                 deletions p (pool c) +
                 count_occ Nat.eq_dec (objects (pool c)) p +
                 present p (activeObjects (pool c))) /\
      (forall p, deletions p (pool c') <= 1).
Proof.
  intros Hdu Hd Hu Hlen _ HD.
  assert (Hud : Nat.eqb updater d = false) by (apply Nat.eqb_neq; auto).
  assert (Hdu' : Nat.eqb d updater = false) by (apply Nat.eqb_neq; auto).
  set (w2 := emit ev_notify_all (set_stopUpdateFlag true (pool c))).
  set (c2 := set_pc d L67 (set_waiting [] (set_pool w2 (set_pc d L66 c)))).
  assert (H2 : exec Object [d; d] c = Some c2).
  { simpl. mstep. rewrite Hd. mstep. reflexivity. }
  assert (Hu2 : threads c2 updater = L39 i).
  { unfold c2. cfg_simpl. now rewrite Hud. }
  assert (Hd2 : threads c2 d = L67) by (unfold c2; cfg_simpl; reflexivity).
  exists c2. split; [exact H2|]. split.
  { unfold step. now rewrite Hd2, Hu2. }
  destruct (@updater_finishes_pass Object k i c2 updater Hu2 Hlen)
    as (c3 & Hex3 & (A3 & B3 & C3 & D3 & F3)).
  change (pool c2) with w2 in A3.
  change (activeObjects w2) with (activeObjects (pool c)) in A3.
  rewrite update_each_spec in A3.
  set (c4 := set_pc updater (Returned None) c3).
  assert (H4 : exec Object (repeat updater 1) c3 = Some c4).
  { simpl. unfold step. rewrite D3, A3. reflexivity. }
  assert (Hd4 : threads c4 d = L67).
  { unfold c4. cfg_simpl. rewrite Hdu'. rewrite F3; auto. }
  assert (Hu4 : has_left (threads c4 updater) = true)
    by (unfold c4; cfg_simpl; reflexivity).
  assert (Hm4 : mutex c4 = None) by exact B3.
  destruct (@dtor_after_join_machine c4 d Hd4 Hu4 Hm4)
    as (w4 & n & c' & Hra & Hex & Hp & Hm' & Hd' & Hf').
  exists n, c'. split.
  { replace (2 * k + 3) with ((2 * k + 2) + 1) by lia.
    rewrite repeat_add, !exec_app, Hex3, H4. exact Hex. }
  split; [exact Hd'|]. split.
  { rewrite Hf' by auto. unfold c4. cfg_simpl. reflexivity. }
  split; [exact Hm'|].
  change (pool c4) with (pool c3) in Hra. rewrite A3 in Hra.
  cbn [activeObjects] in Hra.
  match type of Hra with
  | release_active Object _ ?w3 = _ =>
      destruct (drain_and_delete_counts w3)
        as (w4' & Hra' & O & A & D1 & D2 & D3')
  end.
  cbn [activeObjects set_updateThread emit] in Hra'.
  rewrite Hra in Hra'. injection Hra' as <-.
  rewrite Hp. split; [exact O|]. split; [exact A|].
  assert (E : forall p, deletions p (delete_objects (objects w4) w4) =
                        deletions p (pool c) +
                        count_occ Nat.eq_dec (objects (pool c)) p +
                        present p (activeObjects (pool c))).
  { intro p. rewrite D2. unfold deletions. simpl.
    rewrite !count_occ_app, count_updated. simpl. count_cases; lia. }
  split; [|split; [|split]]; intro p.
  - rewrite (proj2 (D3' p)). unfold updates. simpl.
    rewrite !count_occ_app, count_updated. simpl. count_cases; lia.
  - rewrite D1. unfold deactivations. simpl.
    rewrite !count_occ_app, count_updated. simpl. count_cases; lia.
  - apply E.
  - rewrite E. apply HD.
Qed.

Lemma X16_teardown_waits_for_the_running_pass_witness :
  exists c,
    exec Object [0; 0; 0; 0]
         (boot (run Object [Request; Request] (ObjectPool_2 2 false)) [L65])
    = Some c /\
    (forall t, t <> 1 -> t <> updater -> outside (threads c t) = true) /\
    deleted_once (pool c) /\
    exists c2,
      exec Object [1; 1] c = Some c2 /\
      step Object 1 c2 = None /\
      exists n c',
        exec Object (repeat updater (2 * 1 + 3) ++ repeat 1 n) c2 = Some c' /\
        threads c' 1 = Returned None /\
        threads c' updater = Returned None /\
        mutex c' = None /\
        objects (pool c') = [] /\ activeObjects (pool c') = [] /\
        (forall p, updates p (pool c') =
                   updates p (pool c) +
                   count_occ Nat.eq_dec (skipn 1 (activeObjects (pool c))) p) /\
        (forall p, deactivations p (pool c') =
                   deactivations p (pool c) +
                   present p (activeObjects (pool c))) /\
        (forall p, deletions p (pool c') =
                   deletions p (pool c) +
                   count_occ Nat.eq_dec (objects (pool c)) p +
                   present p (activeObjects (pool c))) /\
        (forall p, deletions p (pool c') <= 1).
Proof.
  eexists. split; [vm_compute; reflexivity|].
  split; [intros [|[|[|t]]] H1 H2; try reflexivity;
    try (now elim H1); now elim H2|].
  match goal with
  | |- deleted_once (pool ?c) /\ _ =>
      assert (HD : deleted_once (pool c))
  end.
  { intro p. vm_compute.
    destruct p as [|[|p]]; simpl; lia. }
  split; [exact HD|].
  match goal with
  | |- exists c2, exec Object _ ?c = Some c2 /\ _ =>
      refine (@X16_teardown_waits_for_the_running_pass c 1 1 1 _ eq_refl
                eq_refl eq_refl _ HD)
  end.
  - discriminate.
  - intros [|[|[|t]]] H1 H2; try reflexivity;
    try (now elim H1); now elim H2.
Defined.

(** ** The mutex is never leaked (X17) *)

Lemma owner_inside_step (R : Resource) (t : tid) (c c' : Config) :
  owner_inside c -> step R t c = Some c' -> owner_inside c'.
Proof.
  intros J Hs. unfold step in Hs.
  destruct (threads c t) eqn:Ht; cfg_simpl;
    repeat match type of Hs with
           | context [match ?x with _ => _ end] => destruct x eqn:?
           | context [if ?x then _ else _] => destruct x eqn:?
           end;
    try discriminate; injection Hs as <-; cfg_simpl.
  all: intros t' Hm'; pose proof (J t') as Jt'; pose proof (J t) as Jt;
    cfg_simpl; destruct (Nat.eqb_spec t' t) as [Heq|Hne].
  all: try (left; reflexivity); try (right; reflexivity);
    try discriminate.
  (* the owner is another thread *)
  all: try (apply Jt'; exact Hm').
  all: try (injection Hm' as Hm'; congruence).
  (* the stepping thread is outside the locked regions and owns nothing *)
  all: try (subst t'; specialize (Jt Hm'); rewrite Ht in Jt;
            destruct Jt as [K|K]; simpl in K; discriminate K).
Qed.

Lemma owner_inside_run (R : Resource) (s : list action) (c c' : Config) :
  owner_inside c -> run_actions R s c = Some c' -> owner_inside c'.
Proof.
  revert c. induction s as [|a s IH]; intros c J H; simpl in H.
  - now injection H as <-.
  - destruct (perform R a c) as [c1|] eqn:Hs; [|discriminate].
    apply (IH c1); [|exact H].
    destruct a as [t|t]; simpl in Hs.
    + exact (owner_inside_step R t J Hs).
    + unfold spurious_wake in Hs.
      destruct (threads c t); try discriminate.
      destruct (is_waiting t c); [|discriminate].
      injection Hs as <-. exact J.
Qed.

(** X17: the mutex is never leaked by a thread that leaves a function.  In
    every configuration reached from construction, under any schedule with
    any spurious wake-ups, for any managed class: every thread inside a
    locked region owns the mutex; the owner of the mutex is inside a locked
    region, unless it ran into undefined behaviour there; and a thread that
    has returned, or has left its function by an exception, never owns it.
    The lock objects of lines 38, 83 and 103 give the mutex back on every
    way out, the exception of [deactivate] at line 104 included. *)
Theorem X17_mutex_is_never_leaked
        (R : Resource) (w : ObjectPool) (entry : list pc) (s : list action)
        (c : Config) :
  Forall (fun p => under_lock p = false) entry ->
  run_actions R s (boot w entry) = Some c ->
  (forall t, under_lock (threads c t) = true -> mutex c = Some t) /\
  (forall t, mutex c = Some t ->
             under_lock (threads c t) = true \/ threads c t = Crashed) /\
  (forall t, outside (threads c t) = true -> mutex c <> Some t).
Proof.
  intros F H.
  assert (J0 : owner_inside (boot w entry)) by (intros t Hm; discriminate Hm).
  pose proof (owner_inside_run R s J0 H) as J.
  split; [|split].
  - intros t U. exact (@locked_regions_own_the_mutex R w entry s c t F H U).
  - exact J.
  - intros t Hl Hm. apply J in Hm.
    destruct Hm as [K|K]; destruct (threads c t); simpl in *; discriminate.
Qed.

Lemma X17_mutex_is_never_leaked_witness :
  exists c,
    Forall (fun p => under_lock p = false) [L82; L103 FromClient 0] /\
    run_actions Object [Run 1; Run 1; Run 1; Run 1; Run 1; Run 1; Run 1;
                        Run 1; Run 0; Run 0; Run 0; Run 0]
      (boot (ObjectPool_2 2 false) [L82; L103 FromClient 0]) = Some c /\
    (forall t, under_lock (threads c t) = true -> mutex c = Some t) /\
    (forall t, mutex c = Some t ->
               under_lock (threads c t) = true \/ threads c t = Crashed) /\
    (forall t, outside (threads c t) = true -> mutex c <> Some t).
Proof.
  eexists.
  assert (F : Forall (fun p => under_lock p = false)
                     [L82; L103 FromClient 0]) by (repeat constructor).
  split; [exact F|]. split; [vm_compute; reflexivity|].
  match goal with
  | |- (forall t, under_lock (threads ?c t) = true -> _) /\ _ =>
      refine (@X17_mutex_is_never_leaked Object (ObjectPool_2 2 false)
                [L82; L103 FromClient 0]
                [Run 1; Run 1; Run 1; Run 1; Run 1; Run 1; Run 1;
                 Run 1; Run 0; Run 0; Run 0; Run 0] c F _)
  end.
  vm_compute. reflexivity.
Defined.

(** ** Two requests for one object (X18) *)

(** X18: the emptiness test of [requestObject] does not protect the
    [front()] that follows it.  On a non-growable pool with a single free
    object, two threads that enter [requestObject] can both pass the locked
    wait loop before either takes the object; the first then takes it, and
    the second calls [front()] on an empty queue. *)
Theorem X18_two_requests_for_one_object
        (R : Resource) (c : Config) (t1 t2 : tid) (obj : ptr) :
  t1 <> t2 ->
  threads c t1 = L82 -> threads c t2 = L82 ->
  mutex c = None -> expandable (pool c) = false ->
  objects (pool c) = [obj] ->
  exists c',
    exec R [t1; t1; t1; t1;  t2; t2; t2; t2;  t1; t1;  t2] c = Some c' /\
    threads c' t1 = L96 obj /\
    threads c' t2 = Crashed /\
    objects (pool c') = [].
Proof.
  intros Hne H1 H2 Hm He Ho.
  assert (E12 : Nat.eqb t1 t2 = false) by (apply Nat.eqb_neq; auto).
  assert (E21 : Nat.eqb t2 t1 = false) by (apply Nat.eqb_neq; auto).
  simpl.
  mstep. rewrite H1, He. simpl.
  mstep. rewrite Hm. cfg_simpl.
  mstep. rewrite Ho. simpl.
  mstep.
  mstep. rewrite E21, H2, He. simpl.
  mstep.
  mstep. rewrite Ho. simpl.
  mstep.
  mstep. rewrite E12. cfg_simpl. rewrite Ho.
  mstep. rewrite Ho.
  mstep. rewrite E21. cfg_simpl. pool_unfold. rewrite Ho. simpl.
  eexists. split; [reflexivity|]. cfg_simpl. rewrite E12. auto.
Qed.

Lemma X18_two_requests_for_one_object_witness :
  let c := boot (ObjectPool_2 1 false) [L82; L82] in
  1 <> 2 /\ threads c 1 = L82 /\ threads c 2 = L82 /\
  mutex c = None /\ expandable (pool c) = false /\
  objects (pool c) = [0] /\
  exists c',
    exec Object [1; 1; 1; 1;  2; 2; 2; 2;  1; 1;  2] c = Some c' /\
    threads c' 1 = L96 0 /\
    threads c' 2 = Crashed /\
    objects (pool c') = [].
Proof.
  assert (H : 1 <> 2) by discriminate.
  split; [exact H|]. repeat (split; [reflexivity|]).
  exact (@X18_two_requests_for_one_object Object
           (boot (ObjectPool_2 1 false) [L82; L82]) 1 2 0 H
           eq_refl eq_refl eq_refl eq_refl eq_refl).
Defined.

(** ** Teardown against a blocked request (X19) *)

(** X19: teardown is not safe against a thread that is suspended in
    [requestObject].  With two objects active, the force-release loop of
    lines 70-72 puts both back in the queue; the woken requester reads the
    first with [front()] (line 94), the destructor deletes that object and
    pops it (lines 74-75), and the requester's own [pop()] (line 95) then
    removes the second object instead.  The requester goes on to call
    [activate] on the deleted object and returns it to its caller, and the
    destructor finds the queue empty and returns without ever deleting the
    second object.  No call of [front()] or [pop()] in this run meets an
    empty queue. *)
Theorem X19_teardown_hands_out_a_deleted_object
        (c : Config) (d t : tid) (o1 o2 : ptr) :
  d <> updater -> t <> d -> t <> updater -> o1 <> o2 ->
  threads c d = L65 -> threads c updater = L37 -> threads c t = L86w ->
  waiting c = [t] -> mutex c = None ->
  objects (pool c) = [] -> activeObjects (pool c) = [o1; o2] ->
  exists c',
    exec Object
      ([d; d; updater] ++ repeat d 19 ++ [t; t; t; t;  d; d;  t; t; t;  d])
      c = Some c' /\
    threads c' d = Returned None /\
    threads c' t = Returned (Some o1) /\
    trace (pool c') =
      trace (pool c) ++
      [ev_notify_all; ev_thread_join;
       ev_deactivate o1; ev_notify_one; ev_deactivate o2; ev_notify_one;
       ev_delete o1; ev_activate o1] /\
    objects (pool c') = [] /\ activeObjects (pool c') = [o1].
Proof.
  intros Hdu Htd Htu Hoo Hd Hu Ht Hw Hm Ho Ha.
  assert (Eud : Nat.eqb updater d = false) by (apply Nat.eqb_neq; auto).
  assert (Edu : Nat.eqb d updater = false) by (apply Nat.eqb_neq; auto).
  assert (Etd : Nat.eqb t d = false) by (apply Nat.eqb_neq; auto).
  assert (Edt : Nat.eqb d t = false) by (apply Nat.eqb_neq; auto).
  assert (Etu : Nat.eqb t updater = false) by (apply Nat.eqb_neq; auto).
  assert (Eut : Nat.eqb updater t = false) by (apply Nat.eqb_neq; auto).
  simpl.
  mstep. rewrite Hd.                                   (* 65 *)
  mstep.                                               (* 66 *)
  mstep. rewrite Eud, Hu. simpl.                       (* 37: flag set *)
  mstep. rewrite Edu. cfg_simpl. simpl.                (* 67 *)
  mstep. rewrite Ha. simpl.                            (* 70 *)
  mstep. rewrite Ha.                                   (* 71 *)
  mstep. rewrite Hm. cfg_simpl.                        (* 103 *)
  mstep. simpl.                                        (* 104 *)
  mstep.                                               (* 105 *)
  mstep.                                               (* 106 *)
  mstep.                                               (* 107 *)
  mstep.                                               (* 108 *)
  mstep. rewrite Ha. simpl.
  destruct (Nat.eq_dec o1 o1) as [_|K]; [|congruence].
  destruct (Nat.eq_dec o1 o2) as [K|_]; [congruence|]. simpl. (* 70 *)
  mstep. rewrite Ha. simpl.
  destruct (Nat.eq_dec o1 o1) as [_|K]; [|congruence].
  destruct (Nat.eq_dec o1 o2) as [K|_]; [congruence|]. simpl. (* 71 *)
  mstep.                                               (* 103 *)
  mstep. simpl.                                        (* 104 *)
  mstep.                                               (* 105 *)
  mstep.                                               (* 106 *)
  mstep.                                               (* 107 *)
  mstep.                                               (* 108 *)
  mstep. rewrite Ha. simpl.
  destruct (Nat.eq_dec o1 o1) as [_|K]; [|congruence].
  destruct (Nat.eq_dec o1 o2) as [K|_]; [congruence|]. simpl.
  destruct (Nat.eq_dec o2 o2) as [_|K]; [|congruence]. simpl. (* 70 *)
  mstep. rewrite Ho. simpl.                            (* 73 *)
  mstep. rewrite Etd, Etu, Ht. cfg_simpl.
  unfold is_waiting. cfg_simpl. simpl.                 (* wake, re-lock *)
  mstep. rewrite Ho. simpl.                            (* 84 *)
  mstep.                                               (* 88 *)
  mstep. rewrite Ho. simpl.                            (* 94 *)
  mstep. rewrite Edt. cfg_simpl. pool_simpl. rewrite Ho. simpl.  (* 74 *)
  mstep.                                               (* 75 *)
  mstep. rewrite Etd. cfg_simpl. pool_simpl. rewrite Ho. simpl.  (* 95 *)
  mstep. cbn [activate_raises Object].                 (* 96 *)
  mstep.                                               (* 97 *)
  mstep. rewrite Edt. cfg_simpl. pool_simpl. rewrite Ho. simpl.  (* 73 *)
  eexists. split; [reflexivity|]. cfg_simpl. rewrite ?Etd, ?Edt.
  pool_simpl. rewrite Ha, Ho. simpl.
  destruct (Nat.eq_dec o1 o1) as [_|K]; [|congruence].
  destruct (Nat.eq_dec o1 o2) as [K|_]; [congruence|]. simpl.
  destruct (Nat.eq_dec o2 o2) as [_|K]; [|congruence].
  rewrite <- !app_assoc. simpl. auto.
Qed.

Lemma X19_teardown_hands_out_a_deleted_object_witness :
  exists c,
    exec Object [1; 1; 1; 1]
         (boot (run Object [Request; Request] (ObjectPool_2 2 false))
               [L82; L65])
    = Some c /\
    exists c',
      exec Object
        ([2; 2; updater] ++ repeat 2 19 ++
         [1; 1; 1; 1;  2; 2;  1; 1; 1;  2])
        c = Some c' /\
      threads c' 2 = Returned None /\
      threads c' 1 = Returned (Some 0) /\
      trace (pool c') =
        trace (pool c) ++
        [ev_notify_all; ev_thread_join;
         ev_deactivate 0; ev_notify_one; ev_deactivate 1; ev_notify_one;
         ev_delete 0; ev_activate 0] /\
      objects (pool c') = [] /\ activeObjects (pool c') = [0].
Proof.
  eexists. split; [vm_compute; reflexivity|].
  match goal with
  | |- exists c', exec Object _ ?c = Some c' /\ _ =>
      refine (@X19_teardown_hands_out_a_deleted_object c 2 1 0 1 _ _ _ _
                eq_refl eq_refl eq_refl eq_refl eq_refl eq_refl eq_refl)
  end; discriminate.
Defined.
